(** * The AGENTS.md validator: structural parser, rule engine, aggregator

    A shallow embedding of [src/lib/markdownParser.ts], of the rule
    catalogue ([validationRules], imported by the validator) and of
    [src/lib/validator.ts], followed by the properties of the analysis
    pipeline.

    Conventions of the embedding.
    - A JavaScript string is a sequence of UTF-16 code units.  A character
      of [string] stands for the code unit with the same number, so the
      development covers the strings whose code units are below 256.
    - Array lengths, line numbers and counts are [nat]; the score, which is
      decremented before it is clamped, is a [Z].
    - [Array.prototype.push] appends at the end of a list; [forEach] is a
      left fold that threads the variables the callback assigns.
    - A regular expression is a function from a position of the subject to
      the positions where a match may end, listed in the order in which the
      backtracking matcher tries them.
    - Of a suggestion the fields [type], [title] and [priority] are kept;
      [message], [suggestion] and [example] are display text that no code
      of the pipeline reads. *)

From Stdlib Require Import String Ascii List ZArith Lia Bool Arith PeanoNat.
From Stdlib Require Import Sorted Permutation.
Import ListNotations.

Local Open Scope string_scope.
Local Open Scope list_scope.
Local Open Scope nat_scope.

(** ** Code units and the string primitives of the host language *)

Module Js.

Definition code (c : ascii) : nat := nat_of_ascii c.

Definition newline : ascii := ascii_of_nat 10.
Definition backtick : ascii := ascii_of_nat 96.
Definition hash : ascii := ascii_of_nat 35.

(** [LineTerminator]: LF and CR (U+2028 and U+2029 lie above 255). *)
Definition isLineTerminator (c : ascii) : bool :=
  (code c =? 10) || (code c =? 13).

(** [WhiteSpace] and [LineTerminator] together: what [trim] strips and
    what the class [\s] matches.  TAB, LF, VT, FF, CR, SP and NBSP. *)
Definition isSpace (c : ascii) : bool :=
  ((9 <=? code c) && (code c <=? 13)) || (code c =? 32) || (code c =? 160).

(** The class [\d]. *)
Definition isDigit (c : ascii) : bool :=
  (48 <=? code c) && (code c <=? 57).

(** The class [\w]: letters, digits and the underscore. *)
Definition isWord (c : ascii) : bool :=
  ((97 <=? code c) && (code c <=? 122))
  || ((65 <=? code c) && (code c <=? 90))
  || isDigit c
  || (code c =? 95).

(** The atom [.] without the [s] flag: anything but a line terminator. *)
Definition isDot (c : ascii) : bool := negb (isLineTerminator c).

Definition isHash (c : ascii) : bool := code c =? 35.
Definition isBacktick (c : ascii) : bool := code c =? 96.

(** [s.split('\n')]: never empty; a trailing newline yields a trailing
    empty line. *)
Fixpoint split (s : string) : list string :=
  match s with
  | EmptyString => [EmptyString]
  | String c r =>
      if code c =? 10 then EmptyString :: split r
      else match split r with
           | l :: ls => String c l :: ls
           | [] => [String c EmptyString]
           end
  end.

Fixpoint trimStart (s : string) : string :=
  match s with
  | EmptyString => EmptyString
  | String c r => if isSpace c then trimStart r else s
  end.

Fixpoint trimEnd (s : string) : string :=
  match s with
  | EmptyString => EmptyString
  | String c r =>
      match trimEnd r with
      | EmptyString => if isSpace c then EmptyString else String c EmptyString
      | r' => String c r'
      end
  end.

Definition trim (s : string) : string := trimEnd (trimStart s).

Fixpoint startsWith (s p : string) : bool :=
  match p, s with
  | EmptyString, _ => true
  | String a p', String b s' => Ascii.eqb a b && startsWith s' p'
  | String _ _, EmptyString => false
  end.

Fixpoint includes (s p : string) : bool :=
  startsWith s p ||
  match s with
  | EmptyString => false
  | String _ r => includes r p
  end.

(** [s.slice(n)] for [n >= 0]. *)
Fixpoint slice (n : nat) (s : string) : string :=
  match n, s with
  | O, _ => s
  | S n', String _ r => slice n' r
  | S _, EmptyString => EmptyString
  end.

(** [toLowerCase] on code units below 256: A-Z, and the Latin-1 capitals
    U+00C0-U+00DE except the multiplication sign U+00D7. *)
Definition lowerChar (c : ascii) : ascii :=
  let n := code c in
  if ((65 <=? n) && (n <=? 90))
     || ((192 <=? n) && (n <=? 222) && negb (n =? 215))
  then ascii_of_nat (n + 32) else c.

Fixpoint toLowerCase (s : string) : string :=
  match s with
  | EmptyString => EmptyString
  | String c r => String (lowerChar c) (toLowerCase r)
  end.

(** [xs.join(sep)]. *)
Fixpoint join (sep : string) (xs : list string) : string :=
  match xs with
  | [] => EmptyString
  | [x] => x
  | x :: r => (x ++ sep ++ join sep r)%string
  end.

(** [a || b] on strings: the empty string is falsy. *)
Definition orElse (a b : string) : string :=
  match a with
  | EmptyString => b
  | _ => a
  end.

End Js.

(** ** Regular expressions as backtracking matchers *)

Module Rx.

(** A position of the subject: the code unit before it, if any, and the
    rest of the subject. *)
Definition pos : Type := option ascii * string.

Definition rx : Type := pos -> list pos.

Definition cls (p : ascii -> bool) : rx :=
  fun st =>
    match snd st with
    | String c r => if p c then [(Some c, r)] else []
    | EmptyString => []
    end.

Definition eps : rx := fun st => [st].

Definition seq (a b : rx) : rx := fun st => flat_map b (a st).

Definition alt (a b : rx) : rx := fun st => a st ++ b st.

(** [r?], greedy. *)
Definition opt (a : rx) : rx := alt a eps.

(** [c*] for a class [c], greedy: the longest run first. *)
Fixpoint starFrom (p : ascii -> bool) (prev : option ascii) (s : string)
  : list pos :=
  match s with
  | String c r =>
      if p c then starFrom p (Some c) r ++ [(prev, s)] else [(prev, s)]
  | EmptyString => [(prev, s)]
  end.

Definition star (p : ascii -> bool) : rx :=
  fun st => starFrom p (fst st) (snd st).

(** [c+]. *)
Definition plus (p : ascii -> bool) : rx := seq (cls p) (star p).

(** [c{0,n}], greedy. *)
Fixpoint uptoFrom (p : ascii -> bool) (n : nat) (prev : option ascii)
  (s : string) : list pos :=
  match n, s with
  | S n', String c r =>
      if p c then uptoFrom p n' (Some c) r ++ [(prev, s)] else [(prev, s)]
  | _, _ => [(prev, s)]
  end.

Definition upto (p : ascii -> bool) (n : nat) : rx :=
  fun st => uptoFrom p n (fst st) (snd st).

Fixpoint lit (w : string) : rx :=
  match w with
  | EmptyString => eps
  | String a w' => seq (cls (Ascii.eqb a)) (lit w')
  end.

Fixpoint alts (ws : list string) : rx :=
  match ws with
  | [] => fun _ => []
  | w :: r => alt (lit w) (alts r)
  end.

Definition wordAt (o : option ascii) : bool :=
  match o with
  | Some c => Js.isWord c
  | None => false
  end.

Definition next (s : string) : option ascii :=
  match s with
  | String c _ => Some c
  | EmptyString => None
  end.

(** The assertion [\b]. *)
Definition wb : rx :=
  fun st => if xorb (wordAt (fst st)) (wordAt (next (snd st))) then [st] else [].

(** The assertion [$] without the [m] flag. *)
Definition eos : rx :=
  fun st => match snd st with EmptyString => [st] | _ => [] end.

(** The negative lookahead [(?!r)]. *)
Definition nla (a : rx) : rx :=
  fun st => match a st with [] => [st] | _ => [] end.

Definition matchesAt (a : rx) (st : pos) : bool :=
  match a st with [] => false | _ => true end.

(** [r.test(s)] for a pattern without [^], from [lastIndex = 0]: some
    position of [s] starts a match. *)
Fixpoint testFrom (a : rx) (prev : option ascii) (s : string) : bool :=
  matchesAt a (prev, s) ||
  match s with
  | String c r => testFrom a (Some c) r
  | EmptyString => false
  end.

Definition test (a : rx) (s : string) : bool := testFrom a None s.

(** The text consumed between the position [before] and the later
    position [after] of one subject. *)
Fixpoint take (n : nat) (s : string) : string :=
  match n, s with
  | S n', String c r => String c (take n' r)
  | _, _ => EmptyString
  end.

Definition consumed (before after : string) : string :=
  take (String.length before - String.length after) before.

End Rx.

(** ** The structural parser ([src/lib/markdownParser.ts]) *)

Record MdSection : Type := mkSection {
  sec_title : string;
  sec_level : nat;
  sec_lineNumber : nat;
  sec_content : string
}.

Record CodeBlock : Type := mkCodeBlock {
  cb_language : string;
  cb_code : string;
  cb_lineNumber : nat
}.

Record Heading : Type := mkHeading {
  h_text : string;
  h_level : nat;
  h_lineNumber : nat
}.

Record ParsedMarkdown : Type := mkParsed {
  sections : list MdSection;
  lineCount : nat;
  characterCount : nat;
  codeBlocks : list CodeBlock;
  headings : list Heading
}.

(** The variables of [parseMarkdown] that the [forEach] callback reads and
    assigns. *)
Record Scan : Type := mkScan {
  sc_sections : list MdSection;
  sc_codeBlocks : list CodeBlock;
  sc_headings : list Heading;
  currentSection : option MdSection;
  inCodeBlock : bool;
  currentCodeBlock : option CodeBlock
}.

Definition scan0 : Scan := mkScan [] [] [] None false None.

Definition nl : string := String Js.newline EmptyString.

Definition fence : string :=
  String Js.backtick (String Js.backtick (String Js.backtick EmptyString)).

(** [line.trim().startsWith(fence)]. *)
Definition isFenceLine (line : string) : bool :=
  Js.startsWith (Js.trim line) fence.

(** [line.match(/^(#{1,6})\s+(.+)$/)]: the two groups of the first match
    in backtracking order, if there is one. *)
Definition headingMatch (line : string) : option (string * string) :=
  hd_error
    (flat_map (fun a =>
       flat_map (fun b =>
         flat_map (fun c =>
           map (fun _ => (Rx.consumed line (snd a),
                          Rx.consumed (snd b) (snd c)))
               (Rx.eos c))
           (Rx.plus Js.isDot b))
         (Rx.plus Js.isSpace a))
       (Rx.seq (Rx.cls Js.isHash) (Rx.upto Js.isHash 5) (None, line))).

(** The body of the [forEach] callback. *)
Definition step (st : Scan) (index : nat) (line : string) : Scan :=
  let lineNumber := index + 1 in
  if isFenceLine line then
    if negb (inCodeBlock st) then
      let language := Js.orElse (Js.trim (Js.slice 3 (Js.trim line))) "text" in
      mkScan (sc_sections st) (sc_codeBlocks st) (sc_headings st)
             (currentSection st) true
             (Some (mkCodeBlock language EmptyString lineNumber))
    else
      match currentCodeBlock st with
      | Some cb =>
          mkScan (sc_sections st) (sc_codeBlocks st ++ [cb]) (sc_headings st)
                 (currentSection st) false None
      | None =>
          mkScan (sc_sections st) (sc_codeBlocks st) (sc_headings st)
                 (currentSection st) false None
      end
  else
    match inCodeBlock st, currentCodeBlock st with
    | true, Some cb =>
        mkScan (sc_sections st) (sc_codeBlocks st) (sc_headings st)
               (currentSection st) (inCodeBlock st)
               (Some (mkCodeBlock (cb_language cb)
                                  (cb_code cb ++ line ++ nl)%string
                                  (cb_lineNumber cb)))
    | _, _ =>
        match headingMatch line with
        | Some (g1, g2) =>
            let level := String.length g1 in
            let text := Js.trim g2 in
            mkScan (match currentSection st with
                    | Some sec => sc_sections st ++ [sec]
                    | None => sc_sections st
                    end)
                   (sc_codeBlocks st)
                   (sc_headings st ++ [mkHeading text level lineNumber])
                   (Some (mkSection text level lineNumber EmptyString))
                   (inCodeBlock st) (currentCodeBlock st)
        | None =>
            match currentSection st with
            | Some sec =>
                mkScan (sc_sections st) (sc_codeBlocks st) (sc_headings st)
                       (Some (mkSection (sec_title sec) (sec_level sec)
                                        (sec_lineNumber sec)
                                        (sec_content sec ++ line ++ nl)%string))
                       (inCodeBlock st) (currentCodeBlock st)
            | None => st
            end
        end
    end.

(** [lines.forEach((line, index) => ...)] from index [i] on. *)
Fixpoint forEachFrom (i : nat) (lines : list string) (st : Scan) : Scan :=
  match lines with
  | [] => st
  | line :: rest => forEachFrom (S i) rest (step st i line)
  end.

(** What [parseMarkdown] returns once the scan is over: the last section
    is pushed, an open code block is not. *)
Definition finish (st : Scan) (nLines nChars : nat) : ParsedMarkdown :=
  mkParsed (match currentSection st with
            | Some sec => sc_sections st ++ [sec]
            | None => sc_sections st
            end)
           nLines nChars (sc_codeBlocks st) (sc_headings st).

(** The parser on the lines of the input. *)
Definition parseLines (lines : list string) (nChars : nat) : ParsedMarkdown :=
  finish (forEachFrom 0 lines scan0) (List.length lines) nChars.

Definition parseMarkdown (content : string) : ParsedMarkdown :=
  parseLines (Js.split content) (String.length content).

(** *** Lexical heuristics *)

Fixpoint seqs (rs : list Rx.rx) : Rx.rx :=
  match rs with
  | [] => Rx.eps
  | r :: rest => Rx.seq r (seqs rest)
  end.

Definition notBacktick (c : ascii) : bool := negb (Js.isBacktick c).

(** One match of the inline-code pattern (a backtick, [[^`]+], a
    backtick) at a position: group 1 and the position after the match. *)
Definition inlineCode (st : Rx.pos) : option (string * Rx.pos) :=
  hd_error
    (flat_map (fun a =>
       flat_map (fun b =>
         map (fun c => (Rx.consumed (snd a) (snd b), c))
             (Rx.cls Js.isBacktick b))
         (Rx.plus notBacktick a))
       (Rx.cls Js.isBacktick st)).

Definition looksLikeCommand (code : string) : bool :=
  Js.includes code " "
  || Js.startsWith code "npm "
  || Js.startsWith code "pnpm "
  || Js.startsWith code "yarn "
  || Js.startsWith code "bun "
  || Js.startsWith code "git "
  || Js.startsWith code "docker "
  || Js.startsWith code "make "
  || Js.includes code "test"
  || Js.includes code "build"
  || Js.includes code "dev"
  || Js.includes code "start".

(** The [while ((match = inlineCodeRegex.exec(content)) !== null)] loop.
    [skip] is the distance from the current position to [lastIndex]: the
    positions inside the previous match start no match. *)
Fixpoint execLoop (skip : nat) (prev : option ascii) (s : string)
  : list string :=
  match s with
  | EmptyString => []
  | String c r =>
      match skip with
      | S k => execLoop k (Some c) r
      | O =>
          match inlineCode (prev, s) with
          | Some (code, after) =>
              (if looksLikeCommand code then [code] else [])
              ++ execLoop (String.length r - String.length (snd after))
                          (Some c) r
          | None => execLoop 0 (Some c) r
          end
      end
  end.

Definition extractCommands (content : string) : list string :=
  execLoop 0 None content.

Definition dot : Rx.rx := Rx.cls (Ascii.eqb ".").

Definition versionPatterns : list Rx.rx :=
  [ seqs [Rx.wb; Rx.plus Js.isWord; Rx.plus Js.isSpace; Rx.plus Js.isDigit;
          Rx.opt (Rx.seq dot (Rx.plus Js.isDigit));
          Rx.opt (Rx.seq dot (Rx.plus Js.isDigit)); Rx.wb];
    seqs [Rx.wb; Rx.plus Js.isWord; Rx.plus Js.isSpace; Rx.lit "v";
          Rx.plus Js.isDigit;
          Rx.opt (Rx.seq dot (Rx.plus Js.isDigit));
          Rx.opt (Rx.seq dot (Rx.plus Js.isDigit)); Rx.wb] ].

Definition hasVersionSpecificity (content : string) : bool :=
  existsb (fun pattern => Rx.test pattern content) versionPatterns.

Record Keywords : Type := mkKeywords {
  hasSetup : bool;
  hasTesting : bool;
  hasCodeStyle : bool;
  hasArchitecture : bool;
  hasSecurity : bool;
  hasGitWorkflow : bool
}.

(** [/\b(w1|w2|...)\b/.test(s)]. *)
Definition wholeWord (ws : list string) (s : string) : bool :=
  Rx.test (seqs [Rx.wb; Rx.alts ws; Rx.wb]) s.

Definition detectSectionKeywords (text : string) : Keywords :=
  let lower := Js.toLowerCase text in
  mkKeywords
    (wholeWord ["setup"; "install"; "dependencies"; "requirements";
                "getting started"; "dev environment"] lower)
    (wholeWord ["test"; "testing"; "qa"; "quality"] lower)
    (wholeWord ["style"; "lint"; "format"; "convention"; "standards"] lower)
    (wholeWord ["architecture"; "structure"; "design"; "organization";
                "overview"] lower)
    (wholeWord ["security"; "auth"; "authentication"; "secrets";
                "credentials"] lower)
    (wholeWord ["git"; "commit"; "pr"; "pull request"; "branch";
                "workflow"] lower).

(** ** The rule catalogue ([validationRules]) *)

Inductive SuggestionPriority : Type := low | medium | high.

Inductive SuggestionType : Type := tip | info | success.

Record ValidationSuggestion : Type := mkSuggestion {
  type : SuggestionType;
  title : string;
  priority : SuggestionPriority
}.

Definition checkLength (parsed : ParsedMarkdown) : option ValidationSuggestion :=
  if 200 <? lineCount parsed then
    Some (mkSuggestion tip "Consider keeping it concise" medium)
  else if 150 <? lineCount parsed then
    Some (mkSuggestion tip "File is getting long" low)
  else None.

Definition checkMinimumContent (parsed : ParsedMarkdown)
  : option ValidationSuggestion :=
  if lineCount parsed <? 5 then
    Some (mkSuggestion tip "Add more context" medium)
  else if List.length (sections parsed) =? 0 then
    Some (mkSuggestion tip "Add section headings" high)
  else None.

(** [parsed.sections.map(s => s.title + ' ' + s.content).join(' ')]. *)
Definition allText (parsed : ParsedMarkdown) : string :=
  Js.join " "
    (map (fun s => (sec_title s ++ " " ++ sec_content s)%string)
         (sections parsed)).

Definition checkCommonSections (parsed : ParsedMarkdown)
  : list ValidationSuggestion :=
  let keywords := detectSectionKeywords (allText parsed) in
  let suggestions := [] in
  let suggestions :=
    if negb (hasSetup keywords) then
      suggestions ++ [mkSuggestion tip "Consider adding setup instructions" high]
    else suggestions in
  let suggestions :=
    if negb (hasTesting keywords) then
      suggestions
      ++ [mkSuggestion tip "Consider adding testing instructions" medium]
    else suggestions in
  let suggestions :=
    if negb (hasCodeStyle keywords) then
      suggestions ++ [mkSuggestion tip "Consider documenting code style" low]
    else suggestions in
  suggestions.

Definition checkCommandFormatting (parsed : ParsedMarkdown) (content : string)
  : option ValidationSuggestion :=
  let commands := extractCommands content in
  if (5 <? List.length commands) && (List.length (codeBlocks parsed) =? 0) then
    Some (mkSuggestion tip "Consider using code blocks" low)
  else None.

Definition notFollowedByVersion (prefix : Rx.rx) : Rx.rx :=
  Rx.nla (seqs [Rx.plus Js.isSpace; prefix; Rx.cls Js.isDigit]).

Definition toolPatterns : list (string * Rx.rx) :=
  [ ("React", seqs [Rx.wb; Rx.lit "React"; Rx.wb; notFollowedByVersion Rx.eps]);
    ("Node", seqs [Rx.wb; Rx.lit "Node"; Rx.opt (Rx.lit ".js"); Rx.wb;
                   notFollowedByVersion (Rx.opt (Rx.lit "v"))]);
    ("Python", seqs [Rx.wb; Rx.lit "Python"; Rx.wb; notFollowedByVersion Rx.eps]);
    ("TypeScript", seqs [Rx.wb; Rx.lit "TypeScript"; Rx.wb;
                         notFollowedByVersion Rx.eps]);
    ("Next.js", seqs [Rx.wb; Rx.lit "Next"; Rx.opt (Rx.lit ".js"); Rx.wb;
                      notFollowedByVersion Rx.eps]) ].

Definition checkVersionSpecificity (content : string)
  : option ValidationSuggestion :=
  let foundTools :=
    map fst (filter (fun np => Rx.test (snd np) content) toolPatterns) in
  if (0 <? List.length foundTools) && negb (hasVersionSpecificity content) then
    Some (mkSuggestion tip "Be more specific about versions" low)
  else None.

Definition checkReadability (parsed : ParsedMarkdown)
  : list ValidationSuggestion :=
  let suggestions := [] in
  let topLevelHeadings := filter (fun h => h_level h =? 1) (headings parsed) in
  let suggestions :=
    if 1 <? List.length topLevelHeadings then
      suggestions ++ [mkSuggestion info "Multiple top-level headings" low]
    else suggestions in
  let longSections :=
    filter (fun s => 50 <? List.length (Js.split (sec_content s)))
           (sections parsed) in
  let suggestions :=
    if 0 <? List.length longSections then
      suggestions ++ [mkSuggestion tip "Some sections are very long" low]
    else suggestions in
  let emptySections :=
    filter (fun s => String.length (Js.trim (sec_content s)) <? 10)
           (sections parsed) in
  let suggestions :=
    if 0 <? List.length emptySections then
      suggestions ++ [mkSuggestion tip "Empty sections detected" medium]
    else suggestions in
  suggestions.

Definition checkWellFormed (parsed : ParsedMarkdown) (content : string)
  : option ValidationSuggestion :=
  let keywords := detectSectionKeywords (allText parsed) in
  let hasGoodLength := (10 <=? lineCount parsed) && (lineCount parsed <=? 150) in
  let hasSections := 3 <=? List.length (sections parsed) in
  let hasCommands :=
    (0 <? List.length (extractCommands content))
    || (0 <? List.length (codeBlocks parsed)) in
  let hasKeyTopics :=
    2 <=? List.length
            (filter (fun b : bool => b)
                    [hasSetup keywords; hasTesting keywords;
                     hasCodeStyle keywords]) in
  if hasGoodLength && hasSections && hasCommands && hasKeyTopics then
    Some (mkSuggestion success "Well-structured AGENTS.md" high)
  else None.

(** ** The aggregator ([src/lib/validator.ts]) *)

Record ValidationResult : Type := mkResult {
  suggestions : list ValidationSuggestion;
  score : Z;
  summary : string
}.

(** [if (x) suggestions.push(x)]. *)
Definition pushIf {A : Type} (l : list A) (x : option A) : list A :=
  match x with
  | Some a => l ++ [a]
  | None => l
  end.

(** The suggestions in the order in which [validateAgentsMd] pushes them,
    before they are sorted. *)
Definition runRules (parsed : ParsedMarkdown) (content : string)
  : list ValidationSuggestion :=
  let suggestions := [] in
  let suggestions := pushIf suggestions (checkLength parsed) in
  let suggestions := pushIf suggestions (checkMinimumContent parsed) in
  let suggestions := suggestions ++ checkCommonSections parsed in
  let suggestions := pushIf suggestions (checkCommandFormatting parsed content) in
  let suggestions := pushIf suggestions (checkVersionSpecificity content) in
  let suggestions := suggestions ++ checkReadability parsed in
  let suggestions := pushIf suggestions (checkWellFormed parsed content) in
  suggestions.

(** [priorityOrder]. *)
Definition priorityOrder (p : SuggestionPriority) : Z :=
  match p with
  | high => 0
  | medium => 1
  | low => 2
  end%Z.

Definition compareFn (a b : ValidationSuggestion) : Z :=
  (priorityOrder (priority a) - priorityOrder (priority b))%Z.

(** [Array.prototype.sort(cmp)], which the language specifies to be a
    stable sort: here the insertion sort that keeps an element before the
    later elements it compares equal to. *)
Fixpoint insert {A : Type} (cmp : A -> A -> Z) (x : A) (l : list A) : list A :=
  match l with
  | [] => [x]
  | y :: r => if (cmp x y <=? 0)%Z then x :: l else y :: insert cmp x r
  end.

Definition sort {A : Type} (cmp : A -> A -> Z) (l : list A) : list A :=
  fold_right (insert cmp) [] l.

Definition isSuccess (s : ValidationSuggestion) : bool :=
  match type s with
  | success => true
  | _ => false
  end.

(** The body of the [forEach] of [calculateScore]. *)
Definition deduct (score : Z) (suggestion : ValidationSuggestion) : Z :=
  if isSuccess suggestion then score
  else match priority suggestion with
       | high => score - 15
       | medium => score - 8
       | low => score - 3
       end%Z.

Definition calculateScore (parsed : ParsedMarkdown)
  (suggestions : list ValidationSuggestion) : Z :=
  let score := 100%Z in
  let score := fold_left deduct suggestions score in
  let score := Z.max 0 score in
  let score :=
    if 3 <=? List.length (sections parsed) then (score + 5)%Z else score in
  let score :=
    if 0 <? List.length (codeBlocks parsed) then (score + 5)%Z else score in
  let score :=
    if (10 <=? lineCount parsed) && (lineCount parsed <=? 150)
    then (score + 5)%Z else score in
  Z.min 100 score.

Definition isHigh (s : ValidationSuggestion) : bool :=
  match priority s with
  | high => true
  | _ => false
  end.

Definition generateSummary (suggestions : list ValidationSuggestion) (score : Z)
  : string :=
  let successSuggestions := filter isSuccess suggestions in
  let highPrioritySuggestions :=
    filter (fun s => isHigh s && negb (isSuccess s)) suggestions in
  if 0 <? List.length successSuggestions then
    "Your AGENTS.md is well-structured and ready to help agents work effectively!"
  else if (80 <=? score)%Z then
    "Your AGENTS.md looks good with just a few suggestions for improvement."
  else if (60 <=? score)%Z then
    "Your AGENTS.md has good basics but could be improved in a few areas."
  else if (40 <=? score)%Z then
    "Your AGENTS.md needs some work. Focus on the high-priority suggestions first."
  else if 0 <? List.length highPrioritySuggestions then
    "Start by addressing the high-priority suggestions to improve your AGENTS.md."
  else
    "Add more content and structure to help agents understand your project.".

(** [!content || content.trim().length === 0]. *)
Definition isBlank (content : string) : bool :=
  (String.length content =? 0) || (String.length (Js.trim content) =? 0).

Definition getStarted : ValidationSuggestion :=
  mkSuggestion tip "Get started with AGENTS.md" high.

Definition emptyResult : ValidationResult :=
  mkResult [getStarted] 0%Z "Empty file - add content to get started".

(** [validateAgentsMd] with the parser and the rule run it calls taken as
    arguments. *)
Definition validateWith
  (parse : string -> ParsedMarkdown)
  (rules : ParsedMarkdown -> string -> list ValidationSuggestion)
  (content : string) : ValidationResult :=
  if isBlank content then emptyResult
  else
    let parsed := parse content in
    let suggestions := sort compareFn (rules parsed content) in
    let score := calculateScore parsed suggestions in
    let summary := generateSummary suggestions score in
    mkResult suggestions score summary.

Definition validateAgentsMd (content : string) : ValidationResult :=
  validateWith parseMarkdown runRules content.

(** ** The generator ([GeneratorWizard]) *)

Record WizardData : Type := mkWizardData {
  projectName : string;
  projectDescription : string;
  packageManager : string;
  installCommand : string;
  devCommand : string;
  buildCommand : string;
  testCommand : string;
  lintCommand : string;
  codeStyle : list string;
  customCodeStyle : string;
  testingInstructions : string;
  prGuidelines : string;
  securityNotes : string;
  additionalNotes : string
}.

(** [codeStyleOptions]: the identifier and the label of each option. *)
Definition codeStyleOptions : list (string * string) :=
  [ ("typescript-strict", "TypeScript strict mode");
    ("single-quotes", "Single quotes");
    ("double-quotes", "Double quotes");
    ("no-semicolons", "No semicolons");
    ("semicolons", "Use semicolons");
    ("functional", "Prefer functional patterns");
    ("tabs", "Use tabs for indentation");
    ("spaces-2", "Use 2 spaces for indentation");
    ("spaces-4", "Use 4 spaces for indentation") ].

(** The truth value of a string in a condition: the empty string is
    false. *)
Definition truthy (s : string) : bool :=
  match s with
  | EmptyString => false
  | _ => true
  end.

(** The statements of [generateMarkdown] act on the array [lines]. *)
Definition action : Type := list string -> list string.

(** [lines.push(x)]. *)
Definition push (x : string) : action := fun lines => lines ++ [x].

(** [if (c) { ... }]. *)
Definition when (c : bool) (body : action) : action :=
  fun lines => if c then body lines else lines.

(** A sequence of statements. *)
Definition run (statements : list action) : action :=
  fun lines => fold_left (fun acc statement => statement acc) statements lines.

(** [xs.forEach((x) => { ... })]. *)
Definition forEach {A : Type} (xs : list A) (body : A -> action) : action :=
  fun lines => fold_left (fun acc x => body x acc) xs lines.

(** [s.split("\n").forEach((line) => { if (line.trim()) lines.push("- " +
    line.trim()) })]. *)
Definition bullets (s : string) : action :=
  forEach (Js.split s)
    (fun line => when (truthy (Js.trim line))
                      (push ("- " ++ Js.trim line)%string)).

Definition tick : string := String Js.backtick EmptyString.

Definition generateMarkdown (data : WizardData) : string :=
  let hasCommands :=
    truthy (installCommand data) || truthy (devCommand data)
    || truthy (buildCommand data) || truthy (testCommand data)
    || truthy (lintCommand data) in
  let hasCodeStyle :=
    (0 <? List.length (codeStyle data)) || truthy (customCodeStyle data) in
  Js.join nl
    (run
       [ push "# AGENTS.md";
         push "";
         when (truthy (projectName data) || truthy (projectDescription data))
           (run [ push "## Project Overview";
                  when (truthy (projectName data))
                    (push ("This is the " ++ projectName data ++ " project.")%string);
                  when (truthy (projectDescription data))
                    (push (projectDescription data));
                  push "" ]);
         when hasCommands
           (run [ push "## Setup Commands";
                  when (truthy (installCommand data))
                    (push ("- Install dependencies: " ++ tick
                           ++ installCommand data ++ tick)%string);
                  when (truthy (devCommand data))
                    (push ("- Start dev server: " ++ tick
                           ++ devCommand data ++ tick)%string);
                  when (truthy (buildCommand data))
                    (push ("- Build project: " ++ tick
                           ++ buildCommand data ++ tick)%string);
                  when (truthy (testCommand data))
                    (push ("- Run tests: " ++ tick
                           ++ testCommand data ++ tick)%string);
                  when (truthy (lintCommand data))
                    (push ("- Run linter: " ++ tick
                           ++ lintCommand data ++ tick)%string);
                  push "" ]);
         when hasCodeStyle
           (run [ push "## Code Style";
                  forEach (codeStyle data)
                    (fun styleId =>
                       match find (fun o => String.eqb (fst o) styleId)
                                  codeStyleOptions with
                       | Some option => push ("- " ++ snd option)%string
                       | None => fun lines => lines
                       end);
                  when (truthy (customCodeStyle data))
                    (bullets (customCodeStyle data));
                  push "" ]);
         when (truthy (testingInstructions data))
           (run [ push "## Testing Instructions";
                  bullets (testingInstructions data);
                  push "" ]);
         when (truthy (prGuidelines data))
           (run [ push "## PR Guidelines";
                  bullets (prGuidelines data);
                  push "" ]);
         when (truthy (securityNotes data))
           (run [ push "## Security Considerations";
                  bullets (securityNotes data);
                  push "" ]);
         when (truthy (additionalNotes data))
           (run [ push "## Additional Notes";
                  push (additionalNotes data);
                  push "" ]) ]
       []).

(** [toggleCodeStyle]: the new value of the field [codeStyle]. *)
Definition toggleCodeStyle (current : list string) (styleId : string)
  : list string :=
  if existsb (String.eqb styleId) current
  then filter (fun s => negb (String.eqb s styleId)) current
  else current ++ [styleId].

(** ** Vocabulary of the properties *)

(** The comparison function that orders by a numeric key. *)
Definition byKey {A : Type} (key : A -> Z) (a b : A) : Z := (key a - key b)%Z.

Definition keyLe {A : Type} (key : A -> Z) (a b : A) : Prop :=
  (key a <= key b)%Z.

(** The rank of a suggestion: 0 for high, 1 for medium, 2 for low. *)
Definition rank (s : ValidationSuggestion) : Z := priorityOrder (priority s).

(** The points a suggestion costs: none for a success, else by priority. *)
Definition penalty (s : ValidationSuggestion) : Z :=
  match type s with
  | success => 0
  | _ => match priority s with
         | high => 15
         | medium => 8
         | low => 3
         end
  end%Z.

Definition deductions (l : list ValidationSuggestion) : Z :=
  fold_right Z.add 0%Z (map penalty l).

Definition bonus (parsed : ParsedMarkdown) : Z :=
  ((if (3 <=? List.length (sections parsed))%nat then 5 else 0)
   + (if (0 <? List.length (codeBlocks parsed))%nat then 5 else 0)
   + (if ((10 <=? lineCount parsed) && (lineCount parsed <=? 150))%nat
      then 5 else 0))%Z.

(** The score as the specification words it: deduct, clamp below at 0,
    add the bonuses, cap at 100. *)
Definition specScore (parsed : ParsedMarkdown)
  (l : list ValidationSuggestion) : Z :=
  Z.min 100 (Z.max 0 (100 - deductions l) + bonus parsed).

(** The suggestions in emission order, before the sort. *)
Definition emitted (content : string) : list ValidationSuggestion :=
  if isBlank content then [getStarted]
  else runRules (parseMarkdown content) content.

(** Every code unit of [s] satisfies [p]. *)
Fixpoint every (p : ascii -> bool) (s : string) : bool :=
  match s with
  | EmptyString => true
  | String c r => p c && every p r
  end.

(** Some suggestion of [l] carries the title [t]. *)
Definition titled (t : string) (l : list ValidationSuggestion) : Prop :=
  exists s, In s l /\ title s = t.

Definition minimumContent : ValidationSuggestion :=
  mkSuggestion tip "Add more context" medium.

Definition noHeadings : ValidationSuggestion :=
  mkSuggestion tip "Add section headings" high.

Definition longSection : ValidationSuggestion :=
  mkSuggestion tip "Some sections are very long" low.

(** The titles of the rules other than the minimum-content check. *)
Definition otherTitles : list string :=
  [ "Consider keeping it concise"; "File is getting long";
    "Consider adding setup instructions";
    "Consider adding testing instructions";
    "Consider documenting code style";
    "Consider using code blocks";
    "Be more specific about versions";
    "Multiple top-level headings"; "Some sections are very long";
    "Empty sections detected"; "Well-structured AGENTS.md" ].

(** The text whose lines are [lines]. *)
Definition text (lines : list string) : string := Js.join nl lines.

(** The sections of a scan, the one in progress included. *)
Definition openSections (st : Scan) : list MdSection :=
  match currentSection st with
  | Some sec => sc_sections st ++ [sec]
  | None => sc_sections st
  end.

(** What a section and the heading that opened it have in common. *)
Definition sectionKey (s : MdSection) : string * nat * nat :=
  (sec_title s, sec_level s, sec_lineNumber s).

Definition headingKey (h : Heading) : string * nat * nat :=
  (h_text h, h_level h, h_lineNumber h).

(** The fence flag and the block in progress agree. *)
Definition fenceConsistent (st : Scan) : Prop :=
  match inCodeBlock st, currentCodeBlock st with
  | true, Some _ => True
  | false, None => True
  | _, _ => False
  end.

(** The line numbers of the fence-marker lines among [lines], the first
    of which has index [i]. *)
Fixpoint fenceNumbers (i : nat) (lines : list string) : list nat :=
  match lines with
  | [] => []
  | l :: r =>
      if isFenceLine l then (i + 1) :: fenceNumbers (S i) r
      else fenceNumbers (S i) r
  end.

(** The markers taken two by two: the opening marker of every pair that
    is closed.  [opened] is a marker that waits for its closing one. *)
Fixpoint pairUp (opened : option nat) (markers : list nat) : list nat :=
  match markers with
  | [] => []
  | f :: r =>
      match opened with
      | None => pairUp (Some f) r
      | Some o => o :: pairUp None r
      end
  end.

(** The number of newline code units of [s]: the number of lines of a
    text whose every line ends in a newline, as the content of a section
    does. *)
Fixpoint newlines (s : string) : nat :=
  match s with
  | EmptyString => 0
  | String c r => if Js.code c =? 10 then S (newlines r) else newlines r
  end.

(** The text made of the lines [ls], each followed by a newline. *)
Fixpoint linesText (ls : list string) : string :=
  match ls with
  | [] => EmptyString
  | l :: r => (l ++ nl ++ linesText r)%string
  end.

(** [c] holds exactly the lines [ls]. *)
Definition contentLines (ls : list string) (c : string) : Prop :=
  c = linesText ls /\ Forall (fun l => newlines l = 0) ls.

(** [n] times the code unit [#]. *)
Fixpoint hashes (n : nat) : string :=
  match n with
  | O => EmptyString
  | S k => String Js.hash (hashes k)
  end.

(** The shape of a heading line: [n] leading [#], from one to six, then
    whitespace, then a body that is not empty and holds no line
    terminator. *)
Definition headingLine (line : string) (n : nat) (body : string) : Prop :=
  exists w,
    line = (hashes n ++ w ++ body)%string
    /\ 1 <= n <= 6
    /\ w <> EmptyString /\ every Js.isSpace w = true
    /\ body <> EmptyString /\ every Js.isDot body = true.

(** The lines that the scan meets outside a fence and that are no fence
    markers, with their line numbers.  [inside] tells whether the scan is
    inside a fence when it reaches the line of index [i]. *)
Fixpoint outsideLines (inside : bool) (i : nat) (lines : list string)
  : list (nat * string) :=
  match lines with
  | [] => []
  | l :: r =>
      if isFenceLine l then outsideLines (negb inside) (S i) r
      else if inside then outsideLines inside (S i) r
      else (i + 1, l) :: outsideLines inside (S i) r
  end.

(** The heading that a line outside a fence contributes, if any. *)
Definition headingOf (p : nat * string) : list Heading :=
  match headingMatch (snd p) with
  | Some (g1, g2) => [mkHeading (Js.trim g2) (String.length g1) (fst p)]
  | None => []
  end.

(** *** Vocabulary of the further properties *)

(** The titles each rule can emit. *)
Definition lengthTitles : list string :=
  ["Consider keeping it concise"; "File is getting long"].

Definition minimumTitles : list string :=
  ["Add more context"; "Add section headings"].

Definition commonTitles : list string :=
  ["Consider adding setup instructions";
   "Consider adding testing instructions";
   "Consider documenting code style"].

Definition readabilityTitles : list string :=
  ["Multiple top-level headings"; "Some sections are very long";
   "Empty sections detected"].

(** Where a suggestion of the rule run comes from, with what the rule
    tells about its title and type. *)
Definition fromRule (parsed : ParsedMarkdown) (content : string)
  (x : ValidationSuggestion) : Prop :=
  (checkLength parsed = Some x /\ In (title x) lengthTitles /\ type x = tip)
  \/ (checkMinimumContent parsed = Some x /\ In (title x) minimumTitles
      /\ type x = tip)
  \/ (In x (checkCommonSections parsed) /\ In (title x) commonTitles
      /\ type x = tip)
  \/ (checkCommandFormatting parsed content = Some x
      /\ title x = "Consider using code blocks" /\ type x = tip)
  \/ (checkVersionSpecificity content = Some x
      /\ title x = "Be more specific about versions" /\ type x = tip)
  \/ (In x (checkReadability parsed) /\ In (title x) readabilityTitles
      /\ type x <> success)
  \/ (checkWellFormed parsed content = Some x
      /\ title x = "Well-structured AGENTS.md" /\ type x = success).

(** The sentences of [generateSummary] that a run can end with, and the
    one for a blank input. *)
Definition reachableSummaries : list string :=
  [ "Empty file - add content to get started";
    "Your AGENTS.md is well-structured and ready to help agents work effectively!";
    "Your AGENTS.md looks good with just a few suggestions for improvement.";
    "Your AGENTS.md has good basics but could be improved in a few areas.";
    "Your AGENTS.md needs some work. Focus on the high-priority suggestions first." ].

(** The points that the suggestion of a rule costs, if it returns one. *)
Definition cost (o : option ValidationSuggestion) : Z :=
  match o with
  | Some x => penalty x
  | None => 0%Z
  end.

(** A label of a code block as the parser leaves it: not empty, and
    without whitespace around it. *)
Definition wellLabelled (b : CodeBlock) : Prop :=
  cb_language b <> EmptyString /\ Js.trim (cb_language b) = cb_language b.

(** The blocks of a scan, the one in progress included, are well
    labelled. *)
Definition labelsOk (st : Scan) : Prop :=
  Forall wellLabelled (sc_codeBlocks st)
  /\ match currentCodeBlock st with
     | Some b => wellLabelled b
     | None => True
     end.

(** What the parser guarantees of the text, the level and the line number
    of a heading, for an input of [n] lines. *)
Definition keyOk (n : nat) (k : string * nat * nat) : Prop :=
  Js.trim (fst (fst k)) = fst (fst k)
  /\ 1 <= snd (fst k) <= 6
  /\ 1 <= snd k <= n.

(** The language that the opening fence line [line] gives its block. *)
Definition fenceLanguage (line : string) : string :=
  Js.orElse (Js.trim (Js.slice 3 (Js.trim line))) "text".

(** [line] is a line of plain content: no fence marker and no heading. *)
Definition plainLine (line : string) : bool :=
  negb (isFenceLine line)
  && match headingMatch line with
     | Some _ => false
     | None => true
     end.

(** The inline span of [c]: [c] between two backticks. *)
Definition span (c rest : string) : string :=
  String Js.backtick (c ++ String Js.backtick rest).

(** What holds of a command that [extractCommands] returns for [content]. *)
Definition commandOf (content c : string) : Prop :=
  c <> EmptyString
  /\ every notBacktick c = true
  /\ looksLikeCommand c = true
  /\ exists a b, content = (a ++ span c b)%string.

Definition notDigit (c : ascii) : bool := negb (Js.isDigit c).

(** A matcher that only moves forward in the subject. *)
Definition forward (r : Rx.rx) : Prop :=
  forall a b, In b (r a) -> exists w, snd a = (w ++ snd b)%string.

(** The code unit before the position reached after [u], when [prev] is
    the one before [u]. *)
Fixpoint lastOr (prev : option ascii) (u : string) : option ascii :=
  match u with
  | EmptyString => prev
  | String c r => lastOr (Some c) r
  end.

(** A word boundary lies between a text that ends with [before] and the
    text [after]. *)
Definition boundary (before : option ascii) (after : string) : bool :=
  xorb (Rx.wordAt before) (Rx.wordAt (Rx.next after)).

(** One of the words [ws] occurs in [s] between two word boundaries. *)
Definition occurs (ws : list string) (s : string) : Prop :=
  exists u w v,
    s = (u ++ w ++ v)%string /\ In w ws
    /\ boundary (lastOr None u) (w ++ v) = true
    /\ boundary (lastOr (lastOr None u) w) v = true.

Definition setupWords : list string :=
  ["setup"; "install"; "dependencies"; "requirements"; "getting started";
   "dev environment"].

Definition testingWords : list string := ["test"; "testing"; "qa"; "quality"].

Definition styleWords : list string :=
  ["style"; "lint"; "format"; "convention"; "standards"].

(** A statement that only appends to [lines]. *)
Definition extends (f : action) : Prop :=
  forall lines, exists more, f lines = lines ++ more.

(** The heading that opens every generated document. *)
Definition titleHeading : Heading := mkHeading "AGENTS.md" 1 1.

(** The headings of the blocks of a generated document. *)
Definition blockHeadings : list string :=
  [ "## Project Overview"; "## Setup Commands"; "## Code Style";
    "## Testing Instructions"; "## PR Guidelines";
    "## Security Considerations"; "## Additional Notes" ].

(** A statement that appends nothing, or lines the first of which is the
    heading of a block. *)
Definition opensBlock (f : action) : Prop :=
  forall lines, exists more,
    f lines = lines ++ more
    /\ match more with
       | [] => True
       | h :: _ => In h blockHeadings
       end.

(** ** Tactics *)

(** Case analysis on the conditionals of the goal. *)
Ltac split_ifs :=
  repeat match goal with
         | |- context [if ?b then _ else _] => destruct b
         end.

(** The cases of [step]: a fence line that opens or closes, a line inside
    a fence, a heading, a content line with or without an open section. *)
Ltac step_cases st line :=
  destruct st as [ss cbs hs cur inb ccb]; unfold step; simpl;
  destruct (isFenceLine line) eqn:Efence; simpl;
  [ destruct inb, ccb; simpl
  | destruct inb, ccb; simpl;
    try (destruct (headingMatch line) as [[? ?]|] eqn:Ematch; simpl;
         [|destruct cur; simpl]) ].

(** Both directions of a statement on what a rule returns, by cases. *)
Ltac decide_some :=
  let x := fresh "x" in let E := fresh "E" in let T := fresh "T" in
  let Hc := fresh "Hc" in let Hd := fresh "Hd" in
  split;
  [ intros (x & E & T); try discriminate E;
    try (injection E as <-; simpl in T; try discriminate T);
    try lia; try (split; [lia|reflexivity]); try (split; lia)
  | intro Hc; try lia; try (destruct Hc as [Hd Hc]; try lia; try discriminate Hc);
    try (eexists; split; reflexivity) ].

(** * Properties *)

(** ** Strings *)

Lemma sapp_nil_r (s : string) : (s ++ "")%string = s.
Proof. induction s as [|c r IH]; simpl; [reflexivity|now rewrite IH]. Qed.

Lemma sapp_assoc (a b c : string) :
  ((a ++ b) ++ c)%string = (a ++ b ++ c)%string.
Proof. induction a as [|x a IH]; simpl; [reflexivity|now rewrite IH]. Qed.

Lemma slength_app (a b : string) :
  String.length (a ++ b) = String.length a + String.length b.
Proof. induction a as [|x a IH]; simpl; [reflexivity|now rewrite IH]. Qed.

Lemma take_app (a b : string) : Rx.take (String.length a) (a ++ b) = a.
Proof. induction a as [|x a IH]; simpl; [now destruct b|now rewrite IH]. Qed.

Lemma consumed_app (a b : string) : Rx.consumed (a ++ b) b = a.
Proof.
  unfold Rx.consumed. rewrite slength_app.
  replace (String.length a + String.length b - String.length b)
    with (String.length a) by lia.
  apply take_app.
Qed.

Lemma every_app (p : ascii -> bool) (a b : string) :
  every p (a ++ b) = every p a && every p b.
Proof.
  induction a as [|x a IH]; simpl; [reflexivity|].
  now rewrite IH, andb_assoc.
Qed.

Lemma trimStart_spaces (w s : string) :
  every Js.isSpace w = true -> Js.trimStart (w ++ s) = Js.trimStart s.
Proof.
  induction w as [|c w IH]; simpl; [reflexivity|].
  intro H. apply andb_true_iff in H as [Hc Hw]. rewrite Hc. now apply IH.
Qed.

Lemma trim_spaces (w s : string) :
  every Js.isSpace w = true -> Js.trim (w ++ s) = Js.trim s.
Proof. intro H. unfold Js.trim. now rewrite trimStart_spaces. Qed.

Lemma isHash_eq (c : ascii) : Js.isHash c = true -> c = Js.hash.
Proof.
  unfold Js.isHash, Js.code, Js.hash. intro H. apply Nat.eqb_eq in H.
  rewrite <- H. symmetry. apply ascii_nat_embedding.
Qed.

Lemma every_hash (w : string) :
  every Js.isHash w = true -> w = hashes (String.length w).
Proof.
  induction w as [|c w IH]; simpl; [reflexivity|].
  intro H. apply andb_true_iff in H as [Hc Hw].
  now rewrite (isHash_eq c Hc), <- (IH Hw).
Qed.

Lemma hashes_every (n : nat) : every Js.isHash (hashes n) = true.
Proof. induction n as [|n IH]; simpl; [reflexivity|exact IH]. Qed.

Lemma hashes_length (n : nat) : String.length (hashes n) = n.
Proof. induction n as [|n IH]; simpl; [reflexivity|now rewrite IH]. Qed.

(** ** The sort *)

Section SortByKey.

Context {A : Type}.
Variable key : A -> Z.

Lemma insert_perm (x : A) (l : list A) :
  Permutation (x :: l) (insert (byKey key) x l).
Proof.
  induction l as [|y r IH]; simpl.
  - apply Permutation_refl.
  - destruct (byKey key x y <=? 0)%Z.
    + apply Permutation_refl.
    + eapply Permutation_trans; [apply perm_swap|].
      now apply perm_skip.
Qed.

Lemma sort_perm (l : list A) : Permutation l (sort (byKey key) l).
Proof.
  induction l as [|x r IH]; simpl.
  - apply perm_nil.
  - eapply Permutation_trans; [apply perm_skip, IH|apply insert_perm].
Qed.

Lemma insert_sorted (x : A) (l : list A) :
  StronglySorted (keyLe key) l ->
  StronglySorted (keyLe key) (insert (byKey key) x l).
Proof.
  induction 1 as [|y r Hs IH Hall]; simpl.
  - constructor; constructor.
  - unfold byKey at 1. destruct (Z.leb_spec (key x - key y) 0) as [Hle|Hgt].
    + constructor.
      * now constructor.
      * constructor; [unfold keyLe; lia|].
        eapply Forall_impl; [|exact Hall].
        unfold keyLe; intros; lia.
    + constructor; [exact IH|].
      eapply Permutation_Forall; [apply insert_perm|].
      constructor; [unfold keyLe; lia|exact Hall].
Qed.

Lemma sort_sorted (l : list A) :
  StronglySorted (keyLe key) (sort (byKey key) l).
Proof.
  induction l as [|x r IH]; simpl.
  - constructor.
  - now apply insert_sorted.
Qed.

(** Insertion only moves [x] past elements of a strictly smaller key, so
    the elements of each key keep their order. *)
Lemma insert_filter_key (k : Z) (x : A) (l : list A) :
  filter (fun a => (key a =? k)%Z) (insert (byKey key) x l)
  = filter (fun a => (key a =? k)%Z) (x :: l).
Proof.
  induction l as [|y r IH]; [reflexivity|].
  simpl insert. unfold byKey at 1.
  destruct (Z.leb_spec (key x - key y) 0) as [Hle|Hgt]; [reflexivity|].
  change (filter (fun a => (key a =? k)%Z) (y :: insert (byKey key) x r))
    with (if (key y =? k)%Z
          then y :: filter (fun a => (key a =? k)%Z) (insert (byKey key) x r)
          else filter (fun a => (key a =? k)%Z) (insert (byKey key) x r)).
  rewrite IH. simpl.
  destruct (Z.eqb_spec (key y) k), (Z.eqb_spec (key x) k);
    try reflexivity; lia.
Qed.

Lemma sort_stable (k : Z) (l : list A) :
  filter (fun a => (key a =? k)%Z) (sort (byKey key) l)
  = filter (fun a => (key a =? k)%Z) l.
Proof.
  induction l as [|x r IH]; [reflexivity|].
  simpl sort. rewrite insert_filter_key. simpl. now rewrite IH.
Qed.

Lemma sorted_nth (l : list A) :
  StronglySorted (keyLe key) l ->
  forall i j a b, i < j ->
    nth_error l i = Some a -> nth_error l j = Some b -> keyLe key a b.
Proof.
  induction 1 as [|y r Hs IH Hall]; intros i j a b Hij Ha Hb.
  - destruct i; discriminate.
  - destruct j as [|j]; [lia|]. simpl in Hb.
    destruct i as [|i]; simpl in Ha.
    + injection Ha as <-.
      rewrite Forall_forall in Hall. apply Hall.
      eapply nth_error_In; eassumption.
    + eapply IH; [|eassumption|eassumption]. lia.
Qed.

End SortByKey.

Lemma compareFn_rank : compareFn = byKey rank.
Proof. reflexivity. Qed.

(** ** Blank input *)

Lemma trimStart_shape (s : string) :
  Js.trimStart s = EmptyString
  \/ exists c r, Js.trimStart s = String c r /\ Js.isSpace c = false.
Proof.
  induction s as [|c r IH]; simpl; [now left|].
  destruct (Js.isSpace c) eqn:E; [exact IH|].
  right. now exists c, r.
Qed.

Lemma trimStart_empty (s : string) :
  Js.trimStart s = EmptyString <-> every Js.isSpace s = true.
Proof.
  induction s as [|c r IH]; simpl; [tauto|].
  destruct (Js.isSpace c); simpl; [exact IH|].
  split; discriminate.
Qed.

Lemma trimEnd_nonspace (c : ascii) (r : string) :
  Js.isSpace c = false -> Js.trimEnd (String c r) <> EmptyString.
Proof.
  intro H. simpl. destruct (Js.trimEnd r); [rewrite H|]; discriminate.
Qed.

Lemma trim_empty (s : string) :
  Js.trim s = EmptyString <-> every Js.isSpace s = true.
Proof.
  rewrite <- trimStart_empty. unfold Js.trim.
  destruct (trimStart_shape s) as [E|(c & r & E & Hc)]; rewrite E.
  - simpl; tauto.
  - split; [|discriminate].
    intro H. now apply trimEnd_nonspace in H.
Qed.

Lemma length_zero (s : string) : (String.length s =? 0) = true <-> s = EmptyString.
Proof. destruct s; simpl; split; congruence. Qed.

Lemma isBlank_spec (content : string) :
  isBlank content = true <-> every Js.isSpace content = true.
Proof.
  unfold isBlank. rewrite orb_true_iff, !length_zero, trim_empty.
  split; [|tauto]. intros [->|H]; [reflexivity|exact H].
Qed.

(** An input that is neither empty nor whitespace passes the guard. *)
Lemma nonblank (content : string) :
  every Js.isSpace content = false -> isBlank content = false.
Proof.
  intro H. destruct (isBlank content) eqn:E; [|reflexivity].
  apply isBlank_spec in E. congruence.
Qed.

(** C2. For an input that is empty or consists of whitespace only,
    [validateAgentsMd] returns the fixed result: score 0, the single
    suggestion Get started (type tip, priority high) and the empty-file
    summary; the result is the same whatever parser and rules the
    validator is given, since it calls neither. *)
Theorem C2_blank_input (content : string) :
  every Js.isSpace content = true ->
  (forall parse rules, validateWith parse rules content = emptyResult)
  /\ score (validateAgentsMd content) = 0%Z
  /\ suggestions (validateAgentsMd content)
     = [mkSuggestion tip "Get started with AGENTS.md" high]
  /\ summary (validateAgentsMd content)
     = "Empty file - add content to get started".
Proof.
  intro H. apply isBlank_spec in H.
  assert (G : forall parse rules, validateWith parse rules content = emptyResult).
  { intros parse rules. unfold validateWith. now rewrite H. }
  split; [exact G|].
  unfold validateAgentsMd. rewrite G. repeat split.
Qed.

Lemma C2_blank_input_witness :
  every Js.isSpace "   " = true
  /\ validateAgentsMd "   " = emptyResult
  /\ score (validateAgentsMd "") = 0%Z.
Proof.
  split; [reflexivity|]. split.
  - apply (proj1 (C2_blank_input "   " eq_refl)).
  - apply (proj1 (proj2 (C2_blank_input "" eq_refl))).
Defined.

(** ** The score *)

Lemma fold_deduct (l : list ValidationSuggestion) (z : Z) :
  fold_left deduct l z = (z - deductions l)%Z.
Proof.
  revert z. induction l as [|s r IH]; intro z; simpl.
  - unfold deductions; simpl; lia.
  - rewrite IH. unfold deductions; simpl.
    unfold deduct, penalty, isSuccess.
    destruct (type s), (priority s); lia.
Qed.

Lemma calculateScore_spec (parsed : ParsedMarkdown)
  (l : list ValidationSuggestion) :
  calculateScore parsed l = specScore parsed l.
Proof.
  unfold calculateScore, specScore, bonus. rewrite fold_deduct.
  destruct (3 <=? List.length (sections parsed)),
           (0 <? List.length (codeBlocks parsed)),
           ((10 <=? lineCount parsed) && (lineCount parsed <=? 150));
    f_equal; lia.
Qed.

Lemma bonus_bounds (parsed : ParsedMarkdown) : (0 <= bonus parsed <= 15)%Z.
Proof.
  unfold bonus.
  destruct (3 <=? List.length (sections parsed)),
           (0 <? List.length (codeBlocks parsed)),
           ((10 <=? lineCount parsed) && (lineCount parsed <=? 150)); lia.
Qed.

Lemma validate_nonblank (content : string) :
  isBlank content = false ->
  validateAgentsMd content
  = let parsed := parseMarkdown content in
    let l := sort compareFn (runRules parsed content) in
    mkResult l (calculateScore parsed l)
             (generateSummary l (calculateScore parsed l)).
Proof.
  intro H. unfold validateAgentsMd, validateWith. now rewrite H.
Qed.

Lemma validate_blank (content : string) :
  isBlank content = true -> validateAgentsMd content = emptyResult.
Proof.
  intro H. unfold validateAgentsMd, validateWith. now rewrite H.
Qed.

(** C1. For a non-blank input the score of [validateAgentsMd] is: 100,
    minus 15, 8 or 3 for each returned suggestion that is not a success
    (by priority high, medium, low), clamped below at 0, plus 5 for at
    least three sections, plus 5 for a code block, plus 5 for a line count
    between 10 and 150, capped at 100.  For every input the score lies
    between 0 and 100. *)
Theorem C1_score_formula (content : string) :
  (every Js.isSpace content = false ->
   score (validateAgentsMd content)
   = specScore (parseMarkdown content)
               (suggestions (validateAgentsMd content)))
  /\ (0 <= score (validateAgentsMd content) <= 100)%Z.
Proof.
  split.
  - intro H. apply nonblank in H.
    rewrite (validate_nonblank content H). cbv zeta. simpl.
    apply calculateScore_spec.
  - destruct (isBlank content) eqn:H.
    + rewrite (validate_blank content H). simpl. lia.
    + rewrite (validate_nonblank content H). cbv zeta. simpl.
      rewrite calculateScore_spec. unfold specScore.
      pose proof (bonus_bounds (parseMarkdown content)). lia.
Qed.

Lemma C1_score_formula_witness :
  every Js.isSpace "hello" = false
  /\ score (validateAgentsMd "hello")
     = specScore (parseMarkdown "hello") (suggestions (validateAgentsMd "hello"))
  /\ score (validateAgentsMd "hello") = 66%Z.
Proof.
  split; [reflexivity|]. split.
  - apply (proj1 (C1_score_formula "hello")). reflexivity.
  - vm_compute. reflexivity.
Defined.

(** ** Order of the suggestions *)

Lemma validate_suggestions (content : string) :
  suggestions (validateAgentsMd content) = sort compareFn (emitted content).
Proof.
  unfold validateAgentsMd, validateWith, emitted.
  destruct (isBlank content); reflexivity.
Qed.

(** C3. In the list returned by [validateAgentsMd], a suggestion never
    precedes one of a smaller rank (high 0, medium 1, low 2), and the
    suggestions of each priority stand in the order in which the rules
    emitted them; the list is a rearrangement of the emitted one. *)
Theorem C3_priority_order_stable (content : string) :
  (forall i j a b, i < j ->
     nth_error (suggestions (validateAgentsMd content)) i = Some a ->
     nth_error (suggestions (validateAgentsMd content)) j = Some b ->
     (rank a <= rank b)%Z)
  /\ (forall k,
        filter (fun s => (rank s =? k)%Z) (suggestions (validateAgentsMd content))
        = filter (fun s => (rank s =? k)%Z) (emitted content))
  /\ Permutation (emitted content) (suggestions (validateAgentsMd content)).
Proof.
  rewrite validate_suggestions, compareFn_rank. repeat split.
  - intros i j a b Hij Ha Hb.
    exact (sorted_nth rank _ (sort_sorted rank _) i j a b Hij Ha Hb).
  - intro k. apply sort_stable.
  - apply sort_perm.
Qed.

Lemma C3_priority_order_stable_witness :
  0 < 1
  /\ nth_error (suggestions (validateAgentsMd "hello")) 0
     = Some (mkSuggestion tip "Consider adding setup instructions" high)
  /\ nth_error (suggestions (validateAgentsMd "hello")) 1
     = Some (mkSuggestion tip "Add more context" medium)
  /\ (rank (mkSuggestion tip "Consider adding setup instructions" high)
      <= rank (mkSuggestion tip "Add more context" medium))%Z.
Proof.
  split; [lia|]. split; [reflexivity|]. split; [reflexivity|].
  apply (proj1 (C3_priority_order_stable "hello") 0 1);
    [lia | reflexivity | reflexivity].
Defined.

(** ** Which rule emits which suggestion *)

Lemma in_pushIf {A : Type} (l : list A) (o : option A) (x : A) :
  In x (pushIf l o) <-> In x l \/ o = Some x.
Proof.
  destruct o as [a|]; simpl.
  - rewrite in_app_iff; simpl. split.
    + intros [H|[H|[]]]; [now left|right; now subst].
    + intros [H|H]; [now left|right; left; congruence].
  - split; [now left|]. intros [H|H]; [exact H|discriminate].
Qed.

Lemma in_runRules (parsed : ParsedMarkdown) (content : string)
  (x : ValidationSuggestion) :
  In x (runRules parsed content) <->
  checkLength parsed = Some x
  \/ checkMinimumContent parsed = Some x
  \/ In x (checkCommonSections parsed)
  \/ checkCommandFormatting parsed content = Some x
  \/ checkVersionSpecificity content = Some x
  \/ In x (checkReadability parsed)
  \/ checkWellFormed parsed content = Some x.
Proof.
  unfold runRules. cbv zeta.
  repeat (rewrite in_pushIf || rewrite in_app_iff). simpl. tauto.
Qed.

Lemma in_validate (content : string) (x : ValidationSuggestion) :
  In x (suggestions (validateAgentsMd content)) <-> In x (emitted content).
Proof.
  rewrite validate_suggestions, compareFn_rank. split; intro H.
  - eapply Permutation_in; [apply Permutation_sym, sort_perm|exact H].
  - eapply Permutation_in; [apply sort_perm|exact H].
Qed.

Lemma checkLength_titles (parsed : ParsedMarkdown) (x : ValidationSuggestion) :
  checkLength parsed = Some x -> In (title x) otherTitles.
Proof.
  unfold checkLength. split_ifs; intro H; inversion H; subst; simpl; tauto.
Qed.

Lemma checkCommonSections_titles (parsed : ParsedMarkdown)
  (x : ValidationSuggestion) :
  In x (checkCommonSections parsed) -> In (title x) otherTitles.
Proof.
  unfold checkCommonSections. cbv zeta.
  set (k := detectSectionKeywords (allText parsed)).
  destruct (hasSetup k), (hasTesting k), (hasCodeStyle k); simpl;
    intuition (subst; simpl; tauto).
Qed.

Lemma checkCommandFormatting_titles (parsed : ParsedMarkdown)
  (content : string) (x : ValidationSuggestion) :
  checkCommandFormatting parsed content = Some x -> In (title x) otherTitles.
Proof.
  unfold checkCommandFormatting. cbv zeta.
  split_ifs; intro H; inversion H; subst; simpl; tauto.
Qed.

Lemma checkVersionSpecificity_titles (content : string)
  (x : ValidationSuggestion) :
  checkVersionSpecificity content = Some x -> In (title x) otherTitles.
Proof.
  unfold checkVersionSpecificity. cbv zeta.
  split_ifs; intro H; inversion H; subst; simpl; tauto.
Qed.

Lemma checkReadability_titles (parsed : ParsedMarkdown)
  (x : ValidationSuggestion) :
  In x (checkReadability parsed) -> In (title x) otherTitles.
Proof.
  unfold checkReadability. cbv zeta.
  split_ifs; simpl; intuition (subst; simpl; tauto).
Qed.

Lemma checkWellFormed_titles (parsed : ParsedMarkdown) (content : string)
  (x : ValidationSuggestion) :
  checkWellFormed parsed content = Some x -> In (title x) otherTitles.
Proof.
  unfold checkWellFormed. cbv zeta.
  split_ifs; intro H; inversion H; subst; simpl; tauto.
Qed.

Lemma otherTitles_not_minimum (t : string) :
  In t otherTitles -> t <> "Add more context" /\ t <> "Add section headings".
Proof.
  unfold otherTitles; simpl.
  intuition (subst; discriminate).
Qed.

(** A suggestion titled like one of the two minimum-content suggestions
    comes from [checkMinimumContent]. *)
Lemma minimum_origin (parsed : ParsedMarkdown) (content : string)
  (x : ValidationSuggestion) :
  In x (runRules parsed content) ->
  title x = "Add more context" \/ title x = "Add section headings" ->
  checkMinimumContent parsed = Some x.
Proof.
  rewrite in_runRules. intros H Ht.
  assert (N : ~ In (title x) otherTitles).
  { intro Hin. apply otherTitles_not_minimum in Hin. tauto. }
  destruct H as [H|[H|[H|[H|[H|[H|H]]]]]]; try exact H; exfalso; apply N.
  - eapply checkLength_titles; eassumption.
  - eapply checkCommonSections_titles; eassumption.
  - eapply checkCommandFormatting_titles; eassumption.
  - eapply checkVersionSpecificity_titles; eassumption.
  - eapply checkReadability_titles; eassumption.
  - eapply checkWellFormed_titles; eassumption.
Qed.

Lemma emitted_nonblank (content : string) :
  isBlank content = false ->
  emitted content = runRules (parseMarkdown content) content.
Proof. intro H. unfold emitted. now rewrite H. Qed.

Lemma emitted_blank (content : string) :
  isBlank content = true -> emitted content = [getStarted].
Proof. intro H. unfold emitted. now rewrite H. Qed.

(** ** The minimum-content check *)

(** The one-line input hello is not blank and has no section, yet no
    suggestion titled Add section headings is returned: the check answers
    Add more context for fewer than five lines. *)
Lemma C4_counterexample :
  every Js.isSpace "hello" = false
  /\ List.length (sections (parseMarkdown "hello")) = 0
  /\ ~ titled "Add section headings" (suggestions (validateAgentsMd "hello")).
Proof.
  split; [reflexivity|]. split; [reflexivity|].
  intros (s & Hin & Ht). vm_compute in Hin.
  repeat (destruct Hin as [<-|Hin]; [discriminate Ht|]).
  exact Hin.
Qed.

(** C4 (amended). For a non-blank input of at least five lines whose
    parse has no section, the result of [validateAgentsMd] contains the
    suggestion Add section headings, of priority high. *)
Theorem C4_no_headings (content : string) :
  every Js.isSpace content = false ->
  List.length (sections (parseMarkdown content)) = 0 ->
  5 <= lineCount (parseMarkdown content) ->
  In noHeadings (suggestions (validateAgentsMd content))
  /\ priority noHeadings = high.
Proof.
  intros Hb Hs Hl. apply nonblank in Hb. split; [|reflexivity].
  rewrite in_validate, (emitted_nonblank content Hb), in_runRules.
  right; left. unfold checkMinimumContent.
  destruct (Nat.ltb_spec (lineCount (parseMarkdown content)) 5); [lia|].
  now rewrite Hs.
Qed.

Lemma C4_no_headings_witness :
  every Js.isSpace (text ["a"; "b"; "c"; "d"; "e"]) = false
  /\ List.length (sections (parseMarkdown (text ["a"; "b"; "c"; "d"; "e"]))) = 0
  /\ 5 <= lineCount (parseMarkdown (text ["a"; "b"; "c"; "d"; "e"]))
  /\ In noHeadings (suggestions (validateAgentsMd (text ["a"; "b"; "c"; "d"; "e"]))).
Proof.
  split; [reflexivity|]. split; [reflexivity|]. split; [vm_compute; lia|].
  apply (C4_no_headings (text ["a"; "b"; "c"; "d"; "e"]));
    [reflexivity | reflexivity | vm_compute; lia].
Defined.

Lemma blank_not_titled (content t : string) :
  isBlank content = true ->
  t <> "Get started with AGENTS.md" ->
  ~ titled t (suggestions (validateAgentsMd content)).
Proof.
  intros Hb Ht (s & Hin & Hs).
  rewrite in_validate, (emitted_blank content Hb) in Hin.
  destruct Hin as [<-|[]]. apply Ht. now rewrite <- Hs.
Qed.

Lemma titled_minimum_origin (content t : string) :
  isBlank content = false ->
  t = "Add more context" \/ t = "Add section headings" ->
  titled t (suggestions (validateAgentsMd content)) ->
  exists x, checkMinimumContent (parseMarkdown content) = Some x /\ title x = t.
Proof.
  intros Hb Ht (x & Hin & Hx).
  rewrite in_validate, (emitted_nonblank content Hb) in Hin.
  exists x. split; [|exact Hx].
  eapply minimum_origin; [exact Hin|]. rewrite Hx. exact Ht.
Qed.

(** C9. The result of [validateAgentsMd] never contains both a suggestion
    titled Add more context and one titled Add section headings: both come
    from [checkMinimumContent], which returns at most one suggestion, and
    for fewer than five lines it returns the former whatever the number of
    sections. *)
Theorem C9_minimum_content_exclusive (content : string) :
  ~ (titled "Add more context" (suggestions (validateAgentsMd content))
     /\ titled "Add section headings" (suggestions (validateAgentsMd content)))
  /\ (every Js.isSpace content = false ->
      lineCount (parseMarkdown content) < 5 ->
      checkMinimumContent (parseMarkdown content) = Some minimumContent
      /\ In minimumContent (suggestions (validateAgentsMd content))
      /\ ~ titled "Add section headings" (suggestions (validateAgentsMd content))).
Proof.
  split.
  - intros [H1 H2]. destruct (isBlank content) eqn:Hb.
    + revert H1. apply blank_not_titled; [exact Hb|discriminate].
    + apply titled_minimum_origin in H1; [|exact Hb|now left].
      apply titled_minimum_origin in H2; [|exact Hb|now right].
      destruct H1 as (x & Hx & Tx), H2 as (y & Hy & Ty).
      rewrite Hx in Hy. injection Hy as <-. rewrite Tx in Ty. discriminate.
  - intros Hb Hl. apply nonblank in Hb.
    assert (E : checkMinimumContent (parseMarkdown content) = Some minimumContent).
    { unfold checkMinimumContent.
      destruct (Nat.ltb_spec (lineCount (parseMarkdown content)) 5);
        [reflexivity|lia]. }
    split; [exact E|]. split.
    + rewrite in_validate, (emitted_nonblank content Hb), in_runRules. tauto.
    + intro H. apply titled_minimum_origin in H; [|exact Hb|now right].
      destruct H as (x & Hx & Tx). rewrite E in Hx. injection Hx as <-.
      discriminate.
Qed.

Lemma C9_minimum_content_exclusive_witness :
  every Js.isSpace "hello" = false
  /\ lineCount (parseMarkdown "hello") < 5
  /\ List.length (sections (parseMarkdown "hello")) = 0
  /\ In minimumContent (suggestions (validateAgentsMd "hello")).
Proof.
  split; [reflexivity|]. split; [vm_compute; lia|]. split; [reflexivity|].
  apply (proj2 (C9_minimum_content_exclusive "hello"));
    [reflexivity | vm_compute; lia].
Defined.

(** ** Invariants of the scan *)

Lemma forEachFrom_app (a b : list string) (i : nat) (st : Scan) :
  forEachFrom i (a ++ b) st
  = forEachFrom (i + List.length a) b (forEachFrom i a st).
Proof.
  revert i st. induction a as [|l a IH]; intros i st; simpl.
  - now rewrite Nat.add_0_r.
  - rewrite IH. f_equal. lia.
Qed.

(** An induction principle for the scan: a property of states that holds
    initially and is kept by every step holds at the end. *)
Lemma forEachFrom_ind (P : Scan -> Prop) :
  (forall st i line, P st -> P (step st i line)) ->
  forall lines i st, P st -> P (forEachFrom i lines st).
Proof.
  intros Hstep lines. induction lines as [|l r IH]; intros i st H; simpl.
  - exact H.
  - apply IH, Hstep, H.
Qed.

Lemma step_fenceConsistent (st : Scan) (i : nat) (line : string) :
  fenceConsistent st -> fenceConsistent (step st i line).
Proof.
  unfold fenceConsistent. step_cases st line; tauto.
Qed.

Lemma scan_fenceConsistent (lines : list string) (i : nat) :
  fenceConsistent (forEachFrom i lines scan0).
Proof.
  apply forEachFrom_ind.
  - intros; now apply step_fenceConsistent.
  - exact I.
Qed.

Lemma finish_sections (st : Scan) (n m : nat) :
  sections (finish st n m) = openSections st.
Proof. reflexivity. Qed.

Lemma step_keys (st : Scan) (i : nat) (line : string) :
  map sectionKey (openSections st) = map headingKey (sc_headings st) ->
  map sectionKey (openSections (step st i line))
  = map headingKey (sc_headings (step st i line)).
Proof.
  unfold openSections. step_cases st line; intro H; try exact H.
  all: try (rewrite !map_app in *; simpl in *; exact H).
  all: destruct cur; simpl in *; rewrite !map_app in *; simpl in *;
    now rewrite H.
Qed.

(** C6. In every parse there are as many headings as sections; the n-th
    section carries the text, the level and the line number of the n-th
    heading. *)
Theorem C6_headings_match_sections (content : string) :
  List.length (headings (parseMarkdown content))
  = List.length (sections (parseMarkdown content))
  /\ map headingKey (headings (parseMarkdown content))
     = map sectionKey (sections (parseMarkdown content)).
Proof.
  assert (K : map sectionKey (sections (parseMarkdown content))
              = map headingKey (headings (parseMarkdown content))).
  { unfold parseMarkdown, parseLines. rewrite finish_sections. simpl.
    apply (forEachFrom_ind
             (fun st => map sectionKey (openSections st)
                        = map headingKey (sc_headings st))).
    - intros; now apply step_keys.
    - reflexivity. }
  split; [|now symmetry].
  rewrite <- (length_map headingKey), <- K. apply length_map.
Qed.

(** ** Code fences *)

Lemma step_codeBlocks (st : Scan) (i : nat) (line : string) (rest : list nat) :
  fenceConsistent st ->
  map cb_lineNumber (sc_codeBlocks (step st i line))
  ++ pairUp (option_map cb_lineNumber (currentCodeBlock (step st i line))) rest
  = map cb_lineNumber (sc_codeBlocks st)
    ++ pairUp (option_map cb_lineNumber (currentCodeBlock st))
              (if isFenceLine line then (i + 1) :: rest else rest).
Proof.
  unfold fenceConsistent.
  step_cases st line; intro H; try contradiction; try reflexivity.
  rewrite map_app, <- app_assoc. reflexivity.
Qed.

Lemma scan_codeBlocks (lines : list string) (i : nat) (st : Scan) :
  fenceConsistent st ->
  map cb_lineNumber (sc_codeBlocks (forEachFrom i lines st))
  = map cb_lineNumber (sc_codeBlocks st)
    ++ pairUp (option_map cb_lineNumber (currentCodeBlock st))
              (fenceNumbers i lines).
Proof.
  revert i st. induction lines as [|l r IH]; intros i st H; simpl.
  - now rewrite app_nil_r.
  - rewrite IH by now apply step_fenceConsistent.
    rewrite step_codeBlocks by exact H.
    now destruct (isFenceLine l).
Qed.

Lemma pairUp_length (markers : list nat) (opened : option nat) :
  List.length (pairUp opened markers)
  = (List.length markers + match opened with Some _ => 1 | None => 0 end) / 2.
Proof.
  revert opened. induction markers as [|f r IH]; intro opened.
  - destruct opened; reflexivity.
  - destruct opened as [o|]; simpl pairUp; simpl List.length; rewrite IH.
    + replace (S (List.length r) + 1) with (List.length r + 0 + 1 * 2) by lia.
      rewrite Nat.div_add by lia. lia.
    + f_equal. lia.
Qed.

Lemma fenceNumbers_above (lines : list string) (i : nat) :
  Forall (lt i) (fenceNumbers i lines).
Proof.
  revert i. induction lines as [|l r IH]; intro i; simpl; [constructor|].
  assert (H : Forall (lt i) (fenceNumbers (S i) r)).
  { eapply Forall_impl; [|apply IH]. intros; lia. }
  destruct (isFenceLine l); [constructor; [lia|exact H]|exact H].
Qed.

Lemma fenceNumbers_increasing (lines : list string) (i : nat) :
  StronglySorted lt (fenceNumbers i lines).
Proof.
  revert i. induction lines as [|l r IH]; intro i; simpl; [constructor|].
  destruct (isFenceLine l); [|apply IH].
  constructor; [apply IH|].
  eapply Forall_impl; [|apply fenceNumbers_above]. intros; lia.
Qed.

Lemma last_in (l : list nat) (d : nat) : l <> [] -> In (last l d) l.
Proof.
  induction l as [|a r IH]; [congruence|]. intros _.
  destruct r as [|b r]; [now left|].
  right. apply IH. discriminate.
Qed.

(** Every block that is emitted opens strictly before the last marker. *)
Lemma pairUp_before_last (markers : list nat) (opened : option nat) :
  StronglySorted lt markers ->
  (forall x, opened = Some x -> Forall (lt x) markers) ->
  Forall (fun x => x < last markers 0) (pairUp opened markers).
Proof.
  revert opened. induction markers as [|f r IH]; intros opened Hs Ho.
  - constructor.
  - inversion Hs as [|? ? Hs' Hf]; subst.
    destruct opened as [o|]; simpl pairUp.
    + constructor.
      * specialize (Ho o eq_refl). rewrite Forall_forall in Ho.
        apply Ho. apply last_in. discriminate.
      * destruct r as [|g r]; [constructor|].
        apply (IH None Hs'). discriminate.
    + destruct r as [|g r]; [constructor|].
      apply (IH (Some f) Hs'). intros x Hx. now injection Hx as <-.
Qed.

Lemma pairUp_subset (markers : list nat) (opened : option nat) (x : nat) :
  In x (pairUp opened markers) -> opened = Some x \/ In x markers.
Proof.
  revert opened. induction markers as [|f r IH]; intros opened H.
  - contradiction.
  - destruct opened as [o|]; simpl in H.
    + destruct H as [->|H]; [now left|].
      apply IH in H as [H|H]; [discriminate|right; now right].
    + apply IH in H as [H|H]; [injection H as ->|]; right; [now left|now right].
Qed.

Lemma fenceNumbers_below (lines : list string) (i : nat) :
  Forall (fun n => n <= i + List.length lines) (fenceNumbers i lines).
Proof.
  revert i. induction lines as [|l r IH]; intro i; simpl; [constructor|].
  assert (H : Forall (fun n => n <= i + S (List.length r))
                     (fenceNumbers (S i) r)).
  { eapply Forall_impl; [|apply IH]. simpl; intros; lia. }
  destruct (isFenceLine l); [constructor; [lia|exact H]|exact H].
Qed.

Lemma parse_codeBlocks (content : string) :
  map cb_lineNumber (codeBlocks (parseMarkdown content))
  = pairUp None (fenceNumbers 0 (Js.split content)).
Proof.
  unfold parseMarkdown, parseLines, finish. simpl.
  now rewrite scan_codeBlocks.
Qed.

(** C5. The parse holds one code block for every two fence-marker lines:
    [n] blocks for [2 n] markers and the rounded-down half in general.
    The blocks are those opened by the first, third, ... marker that has
    a closing marker after it; with an odd number of markers the block
    opened by the last one is not among them, and the parse still
    returns. *)
Theorem C5_fence_balance (content : string) :
  (forall n, List.length (fenceNumbers 0 (Js.split content)) = 2 * n ->
             List.length (codeBlocks (parseMarkdown content)) = n)
  /\ List.length (codeBlocks (parseMarkdown content))
     = List.length (fenceNumbers 0 (Js.split content)) / 2
  /\ map cb_lineNumber (codeBlocks (parseMarkdown content))
     = pairUp None (fenceNumbers 0 (Js.split content))
  /\ (Nat.odd (List.length (fenceNumbers 0 (Js.split content))) = true ->
      ~ In (last (fenceNumbers 0 (Js.split content)) 0)
           (map cb_lineNumber (codeBlocks (parseMarkdown content)))).
Proof.
  assert (L : List.length (codeBlocks (parseMarkdown content))
              = List.length (fenceNumbers 0 (Js.split content)) / 2).
  { rewrite <- (length_map cb_lineNumber), parse_codeBlocks, pairUp_length.
    now rewrite Nat.add_0_r. }
  split; [|split; [exact L|split; [apply parse_codeBlocks|]]].
  - intros n Hn. rewrite L, Hn, Nat.mul_comm. apply Nat.div_mul. lia.
  - intros _ Hin. rewrite parse_codeBlocks in Hin.
    pose proof (pairUp_before_last (fenceNumbers 0 (Js.split content)) None
                  (fenceNumbers_increasing _ 0)) as B.
    rewrite Forall_forall in B.
    assert (last (fenceNumbers 0 (Js.split content)) 0
            < last (fenceNumbers 0 (Js.split content)) 0); [|lia].
    apply B; [discriminate|exact Hin].
Qed.

Lemma C5_fence_balance_witness :
  List.length (fenceNumbers 0 (Js.split (text ["```"; "a"; "```"]))) = 2 * 1
  /\ List.length (codeBlocks (parseMarkdown (text ["```"; "a"; "```"]))) = 1
  /\ Nat.odd (List.length
        (fenceNumbers 0 (Js.split (text ["```js"; "x"; "```"; "```"; "y"]))))
     = true
  /\ ~ In 4 (map cb_lineNumber
               (codeBlocks
                  (parseMarkdown (text ["```js"; "x"; "```"; "```"; "y"])))).
Proof.
  split; [reflexivity|]. split.
  - apply (proj1 (C5_fence_balance (text ["```"; "a"; "```"])) 1). reflexivity.
  - split; [reflexivity|].
    exact (proj2 (proj2 (proj2
             (C5_fence_balance (text ["```js"; "x"; "```"; "```"; "y"]))))
             eq_refl).
Defined.

(** ** An unterminated fence *)

Lemma step_inCodeBlock (st : Scan) (i : nat) (line : string) :
  inCodeBlock (step st i line)
  = if isFenceLine line then negb (inCodeBlock st) else inCodeBlock st.
Proof. step_cases st line; reflexivity. Qed.

Lemma scan_inCodeBlock (lines : list string) (i : nat) (st : Scan) :
  inCodeBlock (forEachFrom i lines st)
  = xorb (inCodeBlock st) (Nat.odd (List.length (fenceNumbers i lines))).
Proof.
  revert i st. induction lines as [|l r IH]; intros i st; simpl.
  - now rewrite xorb_false_r.
  - rewrite IH, step_inCodeBlock. destruct (isFenceLine l); [|reflexivity].
    simpl List.length. rewrite Nat.odd_succ, <- Nat.negb_odd.
    now destruct (inCodeBlock st), (Nat.odd _).
Qed.

(** Inside a fence a line that is not a marker only grows the block in
    progress. *)
Lemma step_inside (st : Scan) (i : nat) (line : string) :
  isFenceLine line = false ->
  inCodeBlock st = true ->
  fenceConsistent st ->
  sc_sections (step st i line) = sc_sections st
  /\ sc_headings (step st i line) = sc_headings st
  /\ sc_codeBlocks (step st i line) = sc_codeBlocks st
  /\ currentSection (step st i line) = currentSection st
  /\ inCodeBlock (step st i line) = true.
Proof.
  unfold fenceConsistent. step_cases st line; simpl; intros Hf Hin Hc;
    try discriminate; try contradiction; repeat split.
Qed.

Lemma scan_inside (lines : list string) (i : nat) (st : Scan) :
  forallb (fun l => negb (isFenceLine l)) lines = true ->
  inCodeBlock st = true ->
  fenceConsistent st ->
  sc_sections (forEachFrom i lines st) = sc_sections st
  /\ sc_headings (forEachFrom i lines st) = sc_headings st
  /\ sc_codeBlocks (forEachFrom i lines st) = sc_codeBlocks st
  /\ currentSection (forEachFrom i lines st) = currentSection st.
Proof.
  revert i st. induction lines as [|l r IH]; intros i st Hall Hin Hc; simpl.
  - repeat split.
  - simpl in Hall. apply andb_true_iff in Hall as [Hl Hr].
    apply negb_true_iff in Hl.
    destruct (step_inside st i l Hl Hin Hc) as (E1 & E2 & E3 & E4 & E5).
    destruct (IH (S i) (step st i l) Hr E5 (step_fenceConsistent _ _ _ Hc))
      as (F1 & F2 & F3 & F4).
    rewrite F1, F2, F3, F4. now repeat split.
Qed.

(** A marker met outside a fence changes neither sections nor headings nor
    the emitted blocks, and enters the fence. *)
Lemma step_open (st : Scan) (i : nat) (line : string) :
  isFenceLine line = true ->
  inCodeBlock st = false ->
  sc_sections (step st i line) = sc_sections st
  /\ sc_headings (step st i line) = sc_headings st
  /\ sc_codeBlocks (step st i line) = sc_codeBlocks st
  /\ currentSection (step st i line) = currentSection st
  /\ inCodeBlock (step st i line) = true.
Proof.
  step_cases st line; simpl; intros Hf Hin; try discriminate; repeat split.
Qed.

Lemma step_headings_bound (st : Scan) (i : nat) (line : string) :
  Forall (fun h => h_lineNumber h <= i) (sc_headings st) ->
  Forall (fun h => h_lineNumber h <= S i) (sc_headings (step st i line)).
Proof.
  intro H.
  assert (H' : Forall (fun h => h_lineNumber h <= S i) (sc_headings st)).
  { eapply Forall_impl; [|exact H]. simpl; intros; lia. }
  revert H'. clear H. step_cases st line; intro H; try exact H.
  all: apply Forall_app; split; [exact H|]; constructor; [simpl; lia|constructor].
Qed.

Lemma scan_headings_bound (lines : list string) (i : nat) (st : Scan) :
  Forall (fun h => h_lineNumber h <= i) (sc_headings st) ->
  Forall (fun h => h_lineNumber h <= i + List.length lines)
         (sc_headings (forEachFrom i lines st)).
Proof.
  revert i st. induction lines as [|l r IH]; intros i st H; simpl.
  - now rewrite Nat.add_0_r.
  - replace (i + S (List.length r)) with (S i + List.length r) by lia.
    apply IH. now apply step_headings_bound.
Qed.

(** The scan of [pre], then of a marker that opens a fence, then of lines
    without a marker. *)
Lemma scan_unterminated (pre post : list string) (f : string) :
  isFenceLine f = true ->
  Nat.even (List.length (fenceNumbers 0 pre)) = true ->
  forallb (fun l => negb (isFenceLine l)) post = true ->
  let st := forEachFrom 0 (pre ++ f :: post) scan0 in
  let st0 := forEachFrom 0 pre scan0 in
  sc_sections st = sc_sections st0
  /\ sc_headings st = sc_headings st0
  /\ sc_codeBlocks st = sc_codeBlocks st0
  /\ currentSection st = currentSection st0.
Proof.
  intros Hf He Hp st st0. subst st.
  rewrite forEachFrom_app. fold st0. simpl.
  assert (Hout : inCodeBlock st0 = false).
  { unfold st0. rewrite scan_inCodeBlock. simpl.
    now rewrite <- Nat.negb_even, He. }
  assert (Hc : fenceConsistent st0) by apply scan_fenceConsistent.
  destruct (step_open st0 (List.length pre) f Hf Hout)
    as (E1 & E2 & E3 & E4 & E5).
  destruct (scan_inside post (S (List.length pre))
              (step st0 (List.length pre) f) Hp E5
              (step_fenceConsistent _ _ _ Hc)) as (F1 & F2 & F3 & F4).
  rewrite F1, F2, F3, F4. now repeat split.
Qed.

(** C10. When the input has a fence marker that opens a fence and no
    marker after it, the lines that follow it leave no trace in headings,
    sections and code blocks: these are the ones of the parse of the lines
    before the marker, no heading bears a line number beyond those lines,
    and no block opens at the marker.  The line count and the character
    count cover the whole input. *)
Theorem C10_unterminated_fence (content : string) (pre post : list string)
  (f : string) :
  Js.split content = pre ++ f :: post ->
  isFenceLine f = true ->
  Nat.even (List.length (fenceNumbers 0 pre)) = true ->
  forallb (fun l => negb (isFenceLine l)) post = true ->
  headings (parseMarkdown content) = headings (parseLines pre 0)
  /\ sections (parseMarkdown content) = sections (parseLines pre 0)
  /\ codeBlocks (parseMarkdown content) = codeBlocks (parseLines pre 0)
  /\ (forall h, In h (headings (parseMarkdown content)) ->
                h_lineNumber h <= List.length pre)
  /\ (forall b, In b (codeBlocks (parseMarkdown content)) ->
                cb_lineNumber b <= List.length pre)
  /\ lineCount (parseMarkdown content)
     = List.length pre + 1 + List.length post
  /\ characterCount (parseMarkdown content) = String.length content.
Proof.
  intros Hs Hf He Hp.
  destruct (scan_unterminated pre post f Hf He Hp) as (E1 & E2 & E3 & E4).
  unfold parseMarkdown, parseLines, finish. rewrite Hs. simpl.
  rewrite E1, E2, E3, E4.
  split; [reflexivity|]. split; [reflexivity|]. split; [reflexivity|].
  split; [|split; [|split; [|reflexivity]]].
  - apply Forall_forall.
    apply (scan_headings_bound pre 0 scan0). constructor.
  - intros b Hb.
    apply (in_map cb_lineNumber) in Hb.
    rewrite scan_codeBlocks in Hb by exact I. simpl in Hb.
    pose proof (pairUp_subset (fenceNumbers 0 pre) None _ Hb) as [H|H];
      [discriminate|].
    pose proof (fenceNumbers_below pre 0) as B.
    rewrite Forall_forall in B. apply B in H. lia.
  - rewrite length_app. simpl. lia.
Qed.

Lemma C10_unterminated_fence_witness :
  Js.split (text ["# A"; "x"; "```js"; "# B"; "y"])
  = ["# A"; "x"] ++ "```js" :: ["# B"; "y"]
  /\ isFenceLine "```js" = true
  /\ Nat.even (List.length (fenceNumbers 0 ["# A"; "x"])) = true
  /\ forallb (fun l => negb (isFenceLine l)) ["# B"; "y"] = true
  /\ headings (parseMarkdown (text ["# A"; "x"; "```js"; "# B"; "y"]))
     = headings (parseLines ["# A"; "x"] 0)
  /\ lineCount (parseMarkdown (text ["# A"; "x"; "```js"; "# B"; "y"])) = 5.
Proof.
  do 4 (split; [reflexivity|]).
  pose proof (C10_unterminated_fence
                (text ["# A"; "x"; "```js"; "# B"; "y"])
                ["# A"; "x"] ["# B"; "y"] "```js"
                eq_refl eq_refl eq_refl eq_refl) as H.
  split; [exact (proj1 H)|].
  exact (proj1 (proj2 (proj2 (proj2 (proj2 (proj2 H)))))).
Defined.

(** ** The matchers *)

Lemma cls_in (p : ascii -> bool) (st q : Rx.pos) :
  In q (Rx.cls p st)
  <-> exists c, snd st = String c (snd q) /\ p c = true /\ fst q = Some c.
Proof.
  unfold Rx.cls. destruct (snd st) as [|c r].
  - split; [contradiction|]. intros (c & H & _). discriminate.
  - destruct (p c) eqn:E; simpl.
    + split.
      * intros [<-|[]]. now exists c.
      * intros (c' & H & _ & Hq). injection H as -> ->. left.
        destruct q; simpl in *; now subst.
    + split; [contradiction|]. intros (c' & H & Hp & _).
      injection H as -> _. congruence.
Qed.

Lemma starFrom_sound (p : ascii -> bool) (s : string) (prev : option ascii)
  (q : Rx.pos) :
  In q (Rx.starFrom p prev s) ->
  exists w, s = (w ++ snd q)%string /\ every p w = true.
Proof.
  revert prev. induction s as [|c r IH]; intro prev; simpl.
  - intros [<-|[]]. now exists EmptyString.
  - destruct (p c) eqn:E.
    + rewrite in_app_iff. intros [H|[<-|[]]].
      * apply IH in H as (w & -> & Hw). exists (String c w). simpl.
        now rewrite E.
      * now exists EmptyString.
    + intros [<-|[]]. now exists EmptyString.
Qed.

Lemma starFrom_complete (p : ascii -> bool) (w r : string)
  (prev : option ascii) :
  every p w = true -> exists o, In (o, r) (Rx.starFrom p prev (w ++ r)).
Proof.
  revert prev. induction w as [|c w IH]; intros prev H; simpl.
  - exists prev. destruct r as [|c r]; simpl; [now left|].
    destruct (p c); [apply in_or_app; right|]; now left.
  - simpl in H. apply andb_true_iff in H as [Hc Hw]. rewrite Hc.
    destruct (IH (Some c) Hw) as (o & Ho). exists o.
    apply in_or_app. now left.
Qed.

Lemma uptoFrom_sound (p : ascii -> bool) (n : nat) (s : string)
  (prev : option ascii) (q : Rx.pos) :
  In q (Rx.uptoFrom p n prev s) ->
  exists w, s = (w ++ snd q)%string /\ every p w = true /\ String.length w <= n.
Proof.
  revert prev s. induction n as [|n IH]; intros prev s; simpl.
  - intros [<-|[]]. exists EmptyString. simpl. auto.
  - destruct s as [|c r].
    + intros [<-|[]]. exists EmptyString. simpl. split; [reflexivity|]. split; [reflexivity|lia].
    + destruct (p c) eqn:E.
      * rewrite in_app_iff. intros [H|[<-|[]]].
        -- apply IH in H as (w & -> & Hw & Hl). exists (String c w). simpl.
           rewrite E. split; [reflexivity|]. split; [exact Hw|lia].
        -- exists EmptyString. simpl. split; [reflexivity|]. split; [reflexivity|lia].
      * intros [<-|[]]. exists EmptyString. simpl. split; [reflexivity|]. split; [reflexivity|lia].
Qed.

Lemma uptoFrom_complete (p : ascii -> bool) (n : nat) (w r : string)
  (prev : option ascii) :
  every p w = true -> String.length w <= n ->
  exists o, In (o, r) (Rx.uptoFrom p n prev (w ++ r)).
Proof.
  revert prev w. induction n as [|n IH]; intros prev w H Hl.
  - destruct w; [|simpl in Hl; lia]. exists prev. now left.
  - destruct w as [|c w]; simpl.
    + exists prev. destruct r as [|c r]; [now left|].
      destruct (p c); [apply in_or_app; right|]; now left.
    + simpl in H, Hl. apply andb_true_iff in H as [Hc Hw]. rewrite Hc.
      destruct (IH (Some c) w Hw ltac:(lia)) as (o & Ho). exists o.
      apply in_or_app. now left.
Qed.

Lemma plus_sound (p : ascii -> bool) (st q : Rx.pos) :
  In q (Rx.plus p st) ->
  exists c w, snd st = String c (w ++ snd q)
              /\ p c = true /\ every p w = true.
Proof.
  unfold Rx.plus, Rx.seq. rewrite in_flat_map.
  intros (a & Ha & Hq). apply cls_in in Ha as (c & Hs & Hc & _).
  apply starFrom_sound in Hq as (w & Hw & Hp).
  exists c, w. rewrite Hs, Hw. auto.
Qed.

Lemma plus_complete (p : ascii -> bool) (c : ascii) (w r : string)
  (prev : option ascii) :
  p c = true -> every p w = true ->
  exists o, In (o, r) (Rx.plus p (prev, String c (w ++ r))).
Proof.
  intros Hc Hw. unfold Rx.plus, Rx.seq.
  destruct (starFrom_complete p w r (Some c) Hw) as (o & Ho).
  exists o. apply in_flat_map. exists (Some c, (w ++ r)%string).
  split; [|exact Ho]. apply cls_in. exists c. simpl. auto.
Qed.

(** ** The heading pattern *)

Lemma hd_error_in {A : Type} (l : list A) (x : A) :
  hd_error l = Some x -> In x l.
Proof. destruct l; simpl; [discriminate|]. intro H; injection H as ->. now left. Qed.

Lemma in_hd_error {A : Type} (l : list A) (x : A) :
  In x l -> hd_error l <> None.
Proof. destruct l; simpl; [contradiction|discriminate]. Qed.

Lemma eos_in (st q : Rx.pos) :
  In q (Rx.eos st) <-> q = st /\ snd st = EmptyString.
Proof.
  unfold Rx.eos. destruct (snd st); simpl.
  - split; [intros [<-|[]]; auto|intros [-> _]; now left].
  - split; [contradiction|intros [_ H]; discriminate].
Qed.

Lemma headingMatch_sound (line g1 g2 : string) :
  headingMatch line = Some (g1, g2) ->
  exists n w,
    g1 = hashes n /\ 1 <= n <= 6
    /\ line = (hashes n ++ w ++ g2)%string
    /\ w <> EmptyString /\ every Js.isSpace w = true
    /\ g2 <> EmptyString /\ every Js.isDot g2 = true.
Proof.
  unfold headingMatch. intro H. apply hd_error_in in H.
  apply in_flat_map in H as (a & Ha & H).
  apply in_flat_map in H as (b & Hb & H).
  apply in_flat_map in H as (c & Hc & H).
  apply in_map_iff in H as (e & He & Hend).
  apply eos_in in Hend as [_ Hend].
  unfold Rx.seq in Ha. apply in_flat_map in Ha as (a0 & Ha0 & Ha).
  apply cls_in in Ha0 as (h & Hl & Hh & _). simpl in Hl.
  apply uptoFrom_sound in Ha as (hs & Hhs & Hall & Hlen).
  apply plus_sound in Hb as (s & ws & Hs & Hsp & Hws).
  apply plus_sound in Hc as (d & ds & Hd & Hdp & Hds).
  rewrite Hend, sapp_nil_r in Hd.
  assert (El : line = (String h hs ++ snd a)%string).
  { rewrite Hl, Hhs. reflexivity. }
  assert (Eh : String h hs = hashes (S (String.length hs))).
  { apply (every_hash (String h hs)). simpl. now rewrite Hh. }
  assert (E1 : g1 = String h hs).
  { replace g1 with (Rx.consumed line (snd a)) by congruence.
    rewrite El. apply consumed_app. }
  assert (E2 : g2 = String d ds).
  { replace g2 with (Rx.consumed (snd b) (snd c)) by congruence.
    rewrite Hend, Hd. rewrite <- (sapp_nil_r (String d ds)) at 1.
    apply consumed_app. }
  subst g1 g2. clear He.
  exists (S (String.length hs)), (String s ws).
  split; [exact Eh|]. split; [lia|]. split.
  - rewrite El, Eh, Hs, Hd. reflexivity.
  - split; [discriminate|]. split; [simpl; now rewrite Hsp|].
    split; [discriminate|]. simpl. now rewrite Hdp.
Qed.

Lemma headingMatch_complete (line : string) (n : nat) (body : string) :
  headingLine line n body -> headingMatch line <> None.
Proof.
  intros (w & -> & Hn & Hw & Hsp & Hb & Hdot).
  destruct n as [|m]; [lia|].
  destruct w as [|s ws]; [congruence|].
  destruct body as [|d ds]; [congruence|].
  simpl in Hsp, Hdot.
  apply andb_true_iff in Hsp as [Hs Hws].
  apply andb_true_iff in Hdot as [Hd Hds].
  destruct (uptoFrom_complete Js.isHash 5 (hashes m)
              (String s ws ++ String d ds) (Some Js.hash)
              (hashes_every m)) as (o1 & H1).
  { rewrite hashes_length. lia. }
  destruct (plus_complete Js.isSpace s ws (String d ds) o1 Hs Hws) as (o2 & H2).
  destruct (plus_complete Js.isDot d ds EmptyString o2 Hd Hds) as (o3 & H3).
  rewrite sapp_nil_r in H3.
  unfold headingMatch.
  apply in_hd_error
    with (x := (Rx.consumed (hashes (S m) ++ String s ws ++ String d ds)
                            (String s ws ++ String d ds),
                Rx.consumed (String d ds) EmptyString)).
  apply in_flat_map. exists (o1, (String s ws ++ String d ds)%string). split.
  - unfold Rx.seq. apply in_flat_map.
    exists (Some Js.hash, (hashes m ++ String s ws ++ String d ds)%string).
    split; [|exact H1].
    apply cls_in. exists Js.hash. simpl. auto.
  - apply in_flat_map. exists (o2, String d ds). split; [exact H2|].
    apply in_flat_map. exists (o3, EmptyString). split; [exact H3|].
    apply in_map_iff. exists (o3, EmptyString). split; [reflexivity|].
    apply eos_in. auto.
Qed.

Lemma space_not_hash (c : ascii) : Js.isSpace c = true -> Js.isHash c = false.
Proof.
  unfold Js.isSpace, Js.isHash. intro H.
  destruct (Nat.eqb_spec (Js.code c) 35) as [E|E]; [|reflexivity].
  rewrite E in H. discriminate.
Qed.

Lemma hashes_split (n n' : nat) (c c' : ascii) (r r' : string) :
  (hashes n ++ String c r)%string = (hashes n' ++ String c' r')%string ->
  Js.isHash c = false -> Js.isHash c' = false ->
  n = n' /\ String c r = String c' r'.
Proof.
  revert n'. induction n as [|n IH]; intros [|n'] H Hc Hc'; simpl in H.
  - auto.
  - injection H as -> _. discriminate.
  - injection H as <- _. discriminate.
  - injection H as H. destruct (IH n' H Hc Hc') as [-> E]. auto.
Qed.

(** The decomposition of a heading line fixes the number of [#] and the
    trimmed body. *)
Lemma headingLine_unique (line : string) (n n' : nat) (body body' : string) :
  headingLine line n body -> headingLine line n' body' ->
  n = n' /\ Js.trim body = Js.trim body'.
Proof.
  intros (w & E & _ & Hw & Hsp & _) (w' & E' & _ & Hw' & Hsp' & _).
  rewrite E in E'.
  destruct w as [|c r]; [congruence|]. destruct w' as [|c' r']; [congruence|].
  simpl in E'.
  assert (Hc : Js.isSpace c = true).
  { simpl in Hsp. now apply andb_true_iff in Hsp as [? _]. }
  assert (Hc' : Js.isSpace c' = true).
  { simpl in Hsp'. now apply andb_true_iff in Hsp' as [? _]. }
  destruct (hashes_split n n' c c' _ _ E'
              (space_not_hash c Hc) (space_not_hash c' Hc')) as [En Er].
  split; [exact En|].
  rewrite <- (trim_spaces (String c r) body Hsp).
  rewrite <- (trim_spaces (String c' r') body' Hsp').
  simpl. now rewrite Er.
Qed.

(** What the heading pattern matches and what its groups hold. *)
Lemma headingMatch_spec (line : string) :
  (headingMatch line <> None <-> exists n body, headingLine line n body)
  /\ (forall g1 g2 n body,
        headingMatch line = Some (g1, g2) -> headingLine line n body ->
        String.length g1 = n /\ Js.trim g2 = Js.trim body).
Proof.
  assert (Hsound : forall g1 g2, headingMatch line = Some (g1, g2) ->
                            headingLine line (String.length g1) g2).
  { intros g1 g2 H.
    apply headingMatch_sound in H as (n & w & -> & Hn & E & Hw & Hs & Hg & Hd).
    rewrite hashes_length. exists w. tauto. }
  split; [split|].
  - destruct (headingMatch line) as [[g1 g2]|] eqn:E; [|congruence].
    intros _. exists (String.length g1), g2. now apply Hsound.
  - intros (n & body & H). eapply headingMatch_complete; eassumption.
  - intros g1 g2 n body H Hl. apply Hsound in H.
    exact (headingLine_unique line _ _ _ _ H Hl).
Qed.

(** ** Headings *)

Lemma step_headings (st : Scan) (i : nat) (line : string) :
  fenceConsistent st ->
  sc_headings (step st i line)
  = sc_headings st
    ++ (if isFenceLine line then []
        else if inCodeBlock st then [] else headingOf (i + 1, line)).
Proof.
  unfold fenceConsistent, headingOf.
  step_cases st line; intro H; try contradiction;
    try rewrite Ematch; simpl; now rewrite ?app_nil_r.
Qed.

Lemma scan_headings (lines : list string) (i : nat) (st : Scan) :
  fenceConsistent st ->
  sc_headings (forEachFrom i lines st)
  = sc_headings st
    ++ flat_map headingOf (outsideLines (inCodeBlock st) i lines).
Proof.
  revert i st. induction lines as [|l r IH]; intros i st H; simpl.
  - now rewrite app_nil_r.
  - rewrite IH by now apply step_fenceConsistent.
    rewrite step_headings by exact H. rewrite step_inCodeBlock.
    destruct (isFenceLine l); [now rewrite app_nil_r|].
    destruct (inCodeBlock st); [now rewrite app_nil_r|].
    simpl. now rewrite app_assoc.
Qed.

Lemma parse_headings (content : string) :
  headings (parseMarkdown content)
  = flat_map headingOf (outsideLines false 0 (Js.split content)).
Proof.
  unfold parseMarkdown, parseLines, finish. simpl.
  now rewrite scan_headings.
Qed.

Lemma outsideLines_above (lines : list string) (inside : bool) (i : nat) :
  Forall (fun p => i < fst p) (outsideLines inside i lines).
Proof.
  revert inside i. induction lines as [|l r IH]; intros inside i; simpl;
    [constructor|].
  assert (H : forall b, Forall (fun p => i < fst p) (outsideLines b (S i) r)).
  { intro b. eapply Forall_impl; [|apply IH]. simpl; intros; lia. }
  destruct (isFenceLine l); [apply H|].
  destruct inside; [apply H|]. constructor; [simpl; lia|apply H].
Qed.

(** A line number names one line. *)
Lemma outsideLines_functional (lines : list string) (inside : bool) (i : nat)
  (k : nat) (l1 l2 : string) :
  In (k, l1) (outsideLines inside i lines) ->
  In (k, l2) (outsideLines inside i lines) -> l1 = l2.
Proof.
  revert inside i. induction lines as [|l r IH]; intros inside i; simpl;
    [contradiction|].
  destruct (isFenceLine l); [apply IH|].
  destruct inside; [apply IH|].
  pose proof (outsideLines_above r false (S i)) as B.
  rewrite Forall_forall in B.
  intros [H1|H1] [H2|H2].
  - congruence.
  - injection H1 as <- _. apply B in H2. simpl in H2. lia.
  - injection H2 as <- _. apply B in H1. simpl in H1. lia.
  - eapply IH; eassumption.
Qed.

Lemma in_headingOf (h : Heading) (k : nat) (l : string) :
  In h (headingOf (k, l))
  <-> exists g1 g2, headingMatch l = Some (g1, g2)
                    /\ h = mkHeading (Js.trim g2) (String.length g1) k.
Proof.
  unfold headingOf. simpl. destruct (headingMatch l) as [[g1 g2]|].
  - split.
    + intros [<-|[]]. now exists g1, g2.
    + intros (a & b & E & ->). injection E as -> ->. now left.
  - split; [contradiction|]. intros (a & b & E & _). discriminate.
Qed.

(** The line made of [#] and two spaces is recorded as a heading whose
    text is empty: the pattern gives the second space to its last group,
    and the trim empties it. *)
Lemma C7_counterexample :
  headings (parseMarkdown "#  ") = [mkHeading "" 1 1]
  /\ (exists h, In h (headings (parseMarkdown "#  ")) /\ h_text h = "").
Proof.
  split; [reflexivity|].
  exists (mkHeading "" 1 1). split; [now left|reflexivity].
Qed.

(** C7 (amended). For a line that the scan meets outside a fence, a
    heading is recorded at its line number exactly when the line consists
    of one to six [#], then one or more whitespace code units, then one or
    more code units none of which is a line terminator.  The level of the
    heading is the number of [#] and its text is the trimmed rest of the
    line, which is empty when that rest is whitespace.  Every recorded
    heading stems from such a line. *)
Theorem C7_heading_lines (content : string) :
  (forall ln line,
     In (ln, line) (outsideLines false 0 (Js.split content)) ->
     ((exists h, In h (headings (parseMarkdown content)) /\ h_lineNumber h = ln)
      <-> exists n body, headingLine line n body)
     /\ (forall h n body,
           In h (headings (parseMarkdown content)) -> h_lineNumber h = ln ->
           headingLine line n body ->
           h_level h = n /\ h_text h = Js.trim body))
  /\ (forall h, In h (headings (parseMarkdown content)) ->
        exists line n body,
          In (h_lineNumber h, line) (outsideLines false 0 (Js.split content))
          /\ headingLine line n body).
Proof.
  rewrite parse_headings. split.
  - intros ln line Hin. split; [split|].
    + intros (h & Hh & Hln). apply in_flat_map in Hh as ([k l] & Hkl & Hh).
      apply in_headingOf in Hh as (g1 & g2 & E & ->). simpl in Hln. subst k.
      rewrite (outsideLines_functional _ _ _ _ _ _ Hin Hkl).
      apply (proj1 (headingMatch_spec l)). congruence.
    + intro H. apply (proj1 (headingMatch_spec line)) in H.
      destruct (headingMatch line) as [[g1 g2]|] eqn:E; [|congruence].
      exists (mkHeading (Js.trim g2) (String.length g1) ln).
      split; [|reflexivity].
      apply in_flat_map. exists (ln, line). split; [exact Hin|].
      apply in_headingOf. now exists g1, g2.
    + intros h n body Hh Hln Hl.
      apply in_flat_map in Hh as ([k l] & Hkl & Hh).
      apply in_headingOf in Hh as (g1 & g2 & E & ->). simpl in Hln. subst k.
      rewrite <- (outsideLines_functional _ _ _ _ _ _ Hin Hkl) in E.
      simpl. exact (proj2 (headingMatch_spec line) g1 g2 n body E Hl).
  - intros h Hh. apply in_flat_map in Hh as ([k l] & Hkl & Hh).
    apply in_headingOf in Hh as (g1 & g2 & E & ->). simpl.
    assert (N : headingMatch l <> None) by congruence.
    apply (proj1 (headingMatch_spec l)) in N as (n & body & Hl).
    now exists l, n, body.
Qed.

Lemma C7_heading_lines_witness :
  In (1, "# Title") (outsideLines false 0 (Js.split (text ["# Title"; "body"])))
  /\ headingLine "# Title" 1 "Title"
  /\ exists h, In h (headings (parseMarkdown (text ["# Title"; "body"])))
               /\ h_lineNumber h = 1.
Proof.
  assert (Hin : In (1, "# Title")
                   (outsideLines false 0 (Js.split (text ["# Title"; "body"]))))
    by (vm_compute; now left).
  assert (Hl : headingLine "# Title" 1 "Title").
  { exists " ". repeat split; try discriminate; lia. }
  split; [exact Hin|]. split; [exact Hl|].
  apply (proj1 (C7_heading_lines (text ["# Title"; "body"])) 1 "# Title" Hin).
  now exists 1, "Title".
Defined.

(** A tab separates like a space; a carriage return at the end of the line
    keeps the pattern from matching. *)
Example heading_after_tab :
  headings (parseMarkdown (String Js.hash (String (ascii_of_nat 9) "T")))
  = [mkHeading "T" 1 1].
Proof. reflexivity. Qed.

Example no_heading_before_cr :
  headings (parseMarkdown ("# T" ++ String (ascii_of_nat 13) ""))
  = [].
Proof. reflexivity. Qed.

(** ** The long-section check *)

Lemma split_length (s : string) : List.length (Js.split s) = S (newlines s).
Proof.
  induction s as [|c r IH]; simpl; [reflexivity|].
  destruct (Js.code c =? 10); simpl; [now rewrite IH|].
  destruct (Js.split r); simpl in *; [discriminate|exact IH].
Qed.

Lemma filter_nonempty {A : Type} (p : A -> bool) (l : list A) :
  (0 <? List.length (filter p l)) = true <-> exists x, In x l /\ p x = true.
Proof.
  rewrite Nat.ltb_lt. split.
  - intro H. destruct (filter p l) as [|x r] eqn:E; [simpl in H; lia|].
    exists x. apply filter_In. rewrite E. now left.
  - intros (x & Hin & Hp).
    assert (Hx : In x (filter p l)) by now apply filter_In.
    destruct (filter p l); [contradiction|simpl; lia].
Qed.

(** What [checkReadability] tests: the rule fires as soon as a section
    holds fifty lines. *)
Lemma longSection_fires (parsed : ParsedMarkdown) :
  In longSection (checkReadability parsed)
  <-> exists s, In s (sections parsed) /\ 50 <= newlines (sec_content s).
Proof.
  assert (E : (exists s, In s (sections parsed) /\ 50 <= newlines (sec_content s))
              <-> (0 <? List.length
                          (filter (fun s => 50 <? List.length (Js.split (sec_content s)))
                                  (sections parsed))) = true).
  { rewrite filter_nonempty.
    split; intros (x & Hin & Hx); exists x; (split; [exact Hin|]).
    - rewrite split_length. apply Nat.ltb_lt. lia.
    - rewrite split_length in Hx. apply Nat.ltb_lt in Hx. lia. }
  rewrite E. unfold checkReadability. cbv zeta.
  destruct (0 <? List.length (filter (fun s => 50 <? List.length (Js.split (sec_content s)))
                                    (sections parsed))).
  - split; [reflexivity|]. intros _.
    split_ifs; simpl; unfold longSection; tauto.
  - split; [|discriminate]. intro H. exfalso. revert H.
    split_ifs; simpl; unfold longSection; intuition discriminate.
Qed.

Lemma newlines_app (a b : string) :
  newlines (a ++ b) = newlines a + newlines b.
Proof.
  induction a as [|c a IH]; simpl; [reflexivity|].
  destruct (Js.code c =? 10); simpl; now rewrite IH.
Qed.

Lemma newlines_linesText (ls : list string) :
  Forall (fun l => newlines l = 0) ls -> newlines (linesText ls) = List.length ls.
Proof.
  induction 1 as [|l r Hl Hr IH]; [reflexivity|].
  change (linesText (l :: r)) with (l ++ nl ++ linesText r)%string.
  rewrite !newlines_app, Hl, IH. reflexivity.
Qed.

Lemma linesText_snoc (ls : list string) (l : string) :
  linesText (ls ++ [l]) = (linesText ls ++ l ++ nl)%string.
Proof.
  induction ls as [|x r IH].
  - reflexivity.
  - change (linesText ((x :: r) ++ [l]))
      with (x ++ nl ++ linesText (r ++ [l]))%string.
    change (linesText (x :: r)) with (x ++ nl ++ linesText r)%string.
    now rewrite IH, !sapp_assoc.
Qed.

Lemma split_no_newline (s : string) :
  Forall (fun l => newlines l = 0) (Js.split s).
Proof.
  induction s as [|c r IH]; simpl.
  - constructor; [reflexivity|constructor].
  - destruct (Js.code c =? 10) eqn:E.
    + constructor; [reflexivity|exact IH].
    + destruct (Js.split r) as [|l ls]; constructor.
      * simpl. now rewrite E.
      * constructor.
      * inversion IH; subst. simpl. now rewrite E.
      * now inversion IH.
Qed.

Lemma step_contentLines (st : Scan) (i : nat) (line : string) :
  newlines line = 0 ->
  Forall (fun s => exists ls, contentLines ls (sec_content s)) (openSections st) ->
  Forall (fun s => exists ls, contentLines ls (sec_content s))
         (openSections (step st i line)).
Proof.
  intro Hl. unfold openSections. step_cases st line; intro H; try exact H.
  (* a heading opens a section without content *)
  all: try (destruct cur; simpl in *; apply Forall_app; (split; [exact H|]);
            (constructor; [|constructor]); exists []; split; constructor).
  (* a content line joins the lines of the open section *)
  all: apply Forall_app in H as [H1 H2]; apply Forall_app; split; [exact H1|];
    inversion H2 as [|? ? (ls & E & F) _]; subst;
    constructor; [|constructor]; exists (ls ++ [line]); split;
    [ simpl; now rewrite E, linesText_snoc
    | apply Forall_app; split; [exact F|]; constructor; [exact Hl|constructor] ].
Qed.

Lemma scan_contentLines (lines : list string) (i : nat) (st : Scan) :
  Forall (fun l => newlines l = 0) lines ->
  Forall (fun s => exists ls, contentLines ls (sec_content s)) (openSections st) ->
  Forall (fun s => exists ls, contentLines ls (sec_content s))
         (openSections (forEachFrom i lines st)).
Proof.
  intro Hl. revert i st. induction Hl as [|l r Hl Hr IH]; intros i st H; simpl.
  - exact H.
  - apply IH. now apply step_contentLines.
Qed.

(** The content of a section is a sequence of lines, each with its
    newline. *)
Lemma parse_contentLines (content : string) (s : MdSection) :
  In s (sections (parseMarkdown content)) ->
  exists ls, contentLines ls (sec_content s).
Proof.
  unfold parseMarkdown, parseLines. rewrite finish_sections.
  pose proof (scan_contentLines (Js.split content) 0 scan0
                (split_no_newline content) (Forall_nil _)) as H.
  rewrite Forall_forall in H. apply H.
Qed.

(** The rule fires exactly when a section holds at least fifty lines. *)
Lemma longSection_threshold (content : string) :
  In longSection (checkReadability (parseMarkdown content))
  <-> exists s ls, In s (sections (parseMarkdown content))
                   /\ contentLines ls (sec_content s)
                   /\ 50 <= List.length ls.
Proof.
  rewrite longSection_fires. split.
  - intros (s & Hs & Hn).
    destruct (parse_contentLines content s Hs) as (ls & E & F).
    exists s, ls. split; [exact Hs|]. split; [now split|].
    now rewrite E, newlines_linesText in Hn.
  - intros (s & ls & Hs & (E & F) & Hn). exists s. split; [exact Hs|].
    now rewrite E, newlines_linesText.
Qed.

Lemma longSection_origin (parsed : ParsedMarkdown) (content : string) :
  In longSection (runRules parsed content)
  <-> In longSection (checkReadability parsed).
Proof.
  rewrite in_runRules. split; [|tauto].
  intros [H|[H|[H|[H|[H|[H|H]]]]]]; try exact H; exfalso; revert H;
    unfold checkLength, checkMinimumContent, checkCommonSections,
      checkCommandFormatting, checkVersionSpecificity, checkWellFormed,
      longSection;
    cbv zeta; split_ifs; simpl; intuition discriminate.
Qed.

(** On a non-blank input the suggestion is returned exactly when a section
    holds at least fifty lines. *)
Lemma longSection_in_result (content : string) :
  every Js.isSpace content = false ->
  In longSection (suggestions (validateAgentsMd content))
  <-> exists s ls, In s (sections (parseMarkdown content))
                   /\ contentLines ls (sec_content s)
                   /\ 50 <= List.length ls.
Proof.
  intro H. apply nonblank in H.
  rewrite in_validate, (emitted_nonblank content H), longSection_origin.
  apply longSection_threshold.
Qed.

(** C8. A document with one section of exactly fifty content lines: no
    section exceeds fifty lines, and [validateAgentsMd] returns the
    suggestion Some sections are very long all the same. *)
Theorem C8_long_section_at_fifty_lines :
  every Js.isSpace (text ("# T" :: repeat "a" 50)) = false
  /\ sections (parseMarkdown (text ("# T" :: repeat "a" 50)))
     = [mkSection "T" 1 1 (linesText (repeat "a" 50))]
  /\ contentLines (repeat "a" 50) (linesText (repeat "a" 50))
  /\ List.length (repeat "a" 50) = 50
  /\ In longSection
        (suggestions (validateAgentsMd (text ("# T" :: repeat "a" 50)))).
Proof.
  do 2 (split; [vm_compute; reflexivity|]).
  assert (C : contentLines (repeat "a" 50) (linesText (repeat "a" 50))).
  { split; [reflexivity|]. repeat constructor. }
  split; [exact C|]. split; [reflexivity|].
  assert (N : every Js.isSpace (text ("# T" :: repeat "a" 50)) = false)
    by (vm_compute; reflexivity).
  apply (proj2 (longSection_in_result (text ("# T" :: repeat "a" 50)) N)).
  exists (mkSection "T" 1 1 (linesText (repeat "a" 50))), (repeat "a" 50).
  split; [vm_compute; now left|]. split; [exact C|]. vm_compute. lia.
Qed.

(** * Further properties *)

(** ** Which rule a suggestion comes from *)

Lemma rule_origin (parsed : ParsedMarkdown) (content : string)
  (x : ValidationSuggestion) :
  In x (runRules parsed content) -> fromRule parsed content x.
Proof.
  rewrite in_runRules. unfold fromRule.
  intros [H|[H|[H|[H|[H|[H|H]]]]]].
  - left. split; [exact H|]. revert H. unfold checkLength.
    split_ifs; intro H; inversion H; subst; simpl; tauto.
  - right; left. split; [exact H|]. revert H. unfold checkMinimumContent.
    split_ifs; intro H; inversion H; subst; simpl; tauto.
  - do 2 right; left. split; [exact H|]. revert H.
    unfold checkCommonSections. cbv zeta.
    split_ifs; simpl; intuition (subst; simpl; tauto).
  - do 3 right; left. split; [exact H|]. revert H.
    unfold checkCommandFormatting. cbv zeta.
    split_ifs; intro H; inversion H; subst; simpl; tauto.
  - do 4 right; left. split; [exact H|]. revert H.
    unfold checkVersionSpecificity. cbv zeta.
    split_ifs; intro H; inversion H; subst; simpl; tauto.
  - do 5 right; left. split; [exact H|]. revert H.
    unfold checkReadability. cbv zeta.
    split_ifs; simpl; intuition (subst; simpl; try tauto; discriminate).
  - do 6 right. split; [exact H|]. revert H.
    unfold checkWellFormed. cbv zeta.
    split_ifs; intro H; inversion H; subst; simpl; tauto.
Qed.

Lemma result_origin (content : string) (x : ValidationSuggestion) :
  isBlank content = false ->
  In x (suggestions (validateAgentsMd content)) ->
  fromRule (parseMarkdown content) content x.
Proof.
  intros Hb H. rewrite in_validate, (emitted_nonblank content Hb) in H.
  now apply rule_origin.
Qed.

(** ** Bounds on the score *)

Lemma deductions_app (a b : list ValidationSuggestion) :
  deductions (a ++ b) = (deductions a + deductions b)%Z.
Proof.
  unfold deductions. induction a as [|x a IH]; simpl; [reflexivity|].
  rewrite IH. lia.
Qed.

Lemma deductions_pushIf (l : list ValidationSuggestion)
  (o : option ValidationSuggestion) :
  deductions (pushIf l o) = (deductions l + cost o)%Z.
Proof.
  destruct o as [x|]; simpl.
  - rewrite deductions_app. unfold deductions. simpl. lia.
  - lia.
Qed.

Lemma deductions_perm (a b : list ValidationSuggestion) :
  Permutation a b -> deductions a = deductions b.
Proof.
  unfold deductions. induction 1; simpl; lia.
Qed.

Lemma deductions_runRules (parsed : ParsedMarkdown) (content : string) :
  deductions (runRules parsed content)
  = (cost (checkLength parsed) + cost (checkMinimumContent parsed)
     + deductions (checkCommonSections parsed)
     + cost (checkCommandFormatting parsed content)
     + cost (checkVersionSpecificity content)
     + deductions (checkReadability parsed)
     + cost (checkWellFormed parsed content))%Z.
Proof.
  unfold runRules. cbv zeta.
  repeat (rewrite deductions_pushIf || rewrite deductions_app).
  unfold deductions at 1. simpl. lia.
Qed.

Lemma cost_checkLength (parsed : ParsedMarkdown) :
  (0 <= cost (checkLength parsed) <= 8)%Z
  /\ (lineCount parsed <= 150 -> cost (checkLength parsed) = 0%Z).
Proof.
  unfold checkLength.
  destruct (Nat.ltb_spec 200 (lineCount parsed));
    [|destruct (Nat.ltb_spec 150 (lineCount parsed))];
    unfold cost, penalty; simpl; split; lia.
Qed.

Lemma cost_checkCommonSections (parsed : ParsedMarkdown) :
  (0 <= deductions (checkCommonSections parsed) <= 26)%Z.
Proof.
  unfold checkCommonSections. cbv zeta.
  split_ifs; unfold deductions, penalty; simpl; lia.
Qed.

Lemma cost_checkCommandFormatting (parsed : ParsedMarkdown) (content : string) :
  (0 <= cost (checkCommandFormatting parsed content) <= 3)%Z.
Proof.
  unfold checkCommandFormatting. cbv zeta. split_ifs; unfold cost, penalty; simpl; lia.
Qed.

Lemma cost_checkVersionSpecificity (content : string) :
  (0 <= cost (checkVersionSpecificity content) <= 3)%Z.
Proof.
  unfold checkVersionSpecificity. cbv zeta. split_ifs; unfold cost, penalty; simpl; lia.
Qed.

Lemma cost_checkReadability (parsed : ParsedMarkdown) :
  (0 <= deductions (checkReadability parsed) <= 14)%Z
  /\ (sections parsed = [] -> headings parsed = [] ->
      deductions (checkReadability parsed) = 0%Z).
Proof.
  split.
  - unfold checkReadability. cbv zeta.
    split_ifs; unfold deductions, penalty; simpl; lia.
  - intros Hs Hh. unfold checkReadability. rewrite Hs, Hh. reflexivity.
Qed.

Lemma cost_checkWellFormed (parsed : ParsedMarkdown) (content : string) :
  cost (checkWellFormed parsed content) = 0%Z.
Proof.
  unfold checkWellFormed. cbv zeta. split_ifs; reflexivity.
Qed.

Lemma parse_keys (content : string) :
  map sectionKey (sections (parseMarkdown content))
  = map headingKey (headings (parseMarkdown content)).
Proof.
  unfold parseMarkdown, parseLines. rewrite finish_sections. simpl.
  apply (forEachFrom_ind
           (fun st => map sectionKey (openSections st)
                      = map headingKey (sc_headings st))).
  - intros; now apply step_keys.
  - reflexivity.
Qed.

Lemma no_sections_no_headings (content : string) :
  sections (parseMarkdown content) = [] -> headings (parseMarkdown content) = [].
Proof.
  intro H. pose proof (parse_keys content) as K. rewrite H in K.
  destruct (headings (parseMarkdown content)); [reflexivity|discriminate].
Qed.

Lemma cost_checkMinimumContent (parsed : ParsedMarkdown) :
  (lineCount parsed < 5 /\ cost (checkMinimumContent parsed) = 8%Z)
  \/ (5 <= lineCount parsed /\ sections parsed = []
      /\ cost (checkMinimumContent parsed) = 15%Z)
  \/ (5 <= lineCount parsed /\ sections parsed <> []
      /\ cost (checkMinimumContent parsed) = 0%Z).
Proof.
  unfold checkMinimumContent.
  destruct (Nat.ltb_spec (lineCount parsed) 5) as [H5|H5].
  - left. split; [exact H5|reflexivity].
  - right. destruct (sections parsed); simpl.
    + left. split; [exact H5|]. split; reflexivity.
    + right. split; [exact H5|]. split; [discriminate|reflexivity].
Qed.

(** The rules cannot all cost their most at once: the high-priority
    answer of the minimum-content check needs a parse without sections,
    which silences the readability check. *)
Lemma deductions_bound (content : string) :
  (0 <= deductions (runRules (parseMarkdown content) content) <= 55)%Z.
Proof.
  rewrite deductions_runRules.
  pose proof (cost_checkLength (parseMarkdown content)) as [L1 L2].
  pose proof (cost_checkCommonSections (parseMarkdown content)) as C.
  pose proof (cost_checkCommandFormatting (parseMarkdown content) content) as F.
  pose proof (cost_checkVersionSpecificity content) as V.
  pose proof (cost_checkReadability (parseMarkdown content)) as [R1 R2].
  rewrite cost_checkWellFormed.
  destruct (cost_checkMinimumContent (parseMarkdown content))
    as [[H5 E]|[(H5 & Hs & E)|(H5 & Hs & E)]]; rewrite E.
  - rewrite L2 by lia. lia.
  - rewrite R2; [lia|exact Hs|]. apply no_sections_no_headings. exact Hs.
  - lia.
Qed.

Lemma score_nonblank (content : string) :
  isBlank content = false ->
  score (validateAgentsMd content)
  = specScore (parseMarkdown content) (runRules (parseMarkdown content) content).
Proof.
  intro H. rewrite (validate_nonblank content H). cbv zeta. simpl.
  rewrite calculateScore_spec. unfold specScore. f_equal. f_equal. f_equal. f_equal.
  symmetry. apply deductions_perm. rewrite compareFn_rank. apply sort_perm.
Qed.

(** X1. The score of a non-blank input is at least 45: the deductions
    of one run never exceed 55 points, so the clamp at 0 never acts. *)
Theorem X1_score_floor (content : string) :
  every Js.isSpace content = false ->
  (45 <= score (validateAgentsMd content) <= 100)%Z
  /\ (deductions (suggestions (validateAgentsMd content)) <= 55)%Z.
Proof.
  intro H. apply nonblank in H.
  pose proof (deductions_bound content) as D.
  pose proof (bonus_bounds (parseMarkdown content)) as B.
  split.
  - rewrite (score_nonblank content H). unfold specScore. lia.
  - rewrite validate_suggestions, (emitted_nonblank content H).
    rewrite <- (deductions_perm _ _ (sort_perm rank _)). lia.
Qed.

Lemma X1_score_floor_witness :
  every Js.isSpace "hello" = false
  /\ (45 <= score (validateAgentsMd "hello") <= 100)%Z.
Proof.
  split; [reflexivity|].
  exact (proj1 (X1_score_floor "hello" eq_refl)).
Defined.

Lemma summary_cases (l : list ValidationSuggestion) (z : Z) :
  (40 <= z)%Z -> In (generateSummary l z) reachableSummaries.
Proof.
  intro H. unfold generateSummary, reachableSummaries. cbv zeta.
  destruct (0 <? List.length (filter isSuccess l)); [simpl; tauto|].
  destruct (Z.leb_spec 80 z); [simpl; tauto|].
  destruct (Z.leb_spec 60 z); [simpl; tauto|].
  destruct (Z.leb_spec 40 z); [simpl; tauto|lia].
Qed.

(** X2. The summary of a result is the empty-file sentence or one of the
    first four sentences of [generateSummary]; the two last sentences,
    which need a score below 40, are never returned. *)
Theorem X2_summary_reachable (content : string) :
  In (summary (validateAgentsMd content)) reachableSummaries
  /\ summary (validateAgentsMd content)
     <> "Start by addressing the high-priority suggestions to improve your AGENTS.md."
  /\ summary (validateAgentsMd content)
     <> "Add more content and structure to help agents understand your project.".
Proof.
  assert (R : In (summary (validateAgentsMd content)) reachableSummaries).
  { destruct (isBlank content) eqn:Hb.
    - rewrite (validate_blank content Hb). simpl. tauto.
    - assert (S45 : (45 <= score (validateAgentsMd content))%Z).
      { pose proof (deductions_bound content) as D.
        pose proof (bonus_bounds (parseMarkdown content)) as B.
        rewrite (score_nonblank content Hb). unfold specScore. lia. }
      rewrite (validate_nonblank content Hb) in *. cbv zeta in *. simpl in *.
      apply summary_cases. lia. }
  split; [exact R|].
  unfold reachableSummaries in R. simpl in R.
  split; intro E; rewrite E in R; intuition discriminate.
Qed.

(** X3. The score does not depend on the order of the suggestions:
    [calculateScore] gives the same score for two lists that are
    rearrangements of each other, so sorting before scoring changes
    nothing. *)
Theorem X3_score_order_independent (parsed : ParsedMarkdown)
  (l l' : list ValidationSuggestion) :
  Permutation l l' -> calculateScore parsed l = calculateScore parsed l'.
Proof.
  intro H. rewrite !calculateScore_spec. unfold specScore.
  now rewrite (deductions_perm l l' H).
Qed.

Lemma X3_score_order_independent_witness :
  calculateScore (parseMarkdown "hello") [minimumContent; noHeadings]
  = calculateScore (parseMarkdown "hello") [noHeadings; minimumContent].
Proof.
  apply X3_score_order_independent. apply perm_swap.
Defined.

(** ** The length and minimum-content rules in the result *)

Lemma titled_result (content t : string) :
  isBlank content = false ->
  titled t (suggestions (validateAgentsMd content))
  <-> exists x, In x (runRules (parseMarkdown content) content) /\ title x = t.
Proof.
  intro Hb. unfold titled. split; intros (x & Hin & Ht); exists x;
    (split; [|exact Ht]).
  - now rewrite in_validate, (emitted_nonblank content Hb) in Hin.
  - now rewrite in_validate, (emitted_nonblank content Hb).
Qed.

Lemma titled_checkLength (parsed : ParsedMarkdown) (content : string) (t : string) :
  In t lengthTitles ->
  (exists x, In x (runRules parsed content) /\ title x = t)
  <-> exists x, checkLength parsed = Some x /\ title x = t.
Proof.
  intro Ht. split; intros (x & Hx & E); exists x; (split; [|exact E]).
  - apply rule_origin in Hx. unfold fromRule in Hx.
    unfold lengthTitles, minimumTitles, commonTitles, readabilityTitles in *.
    simpl in *. rewrite E in Hx.
    intuition (try congruence; subst t; discriminate).
  - apply in_runRules. now left.
Qed.

Lemma titled_checkMinimumContent (parsed : ParsedMarkdown) (content : string)
  (t : string) :
  In t minimumTitles ->
  (exists x, In x (runRules parsed content) /\ title x = t)
  <-> exists x, checkMinimumContent parsed = Some x /\ title x = t.
Proof.
  intro Ht. split; intros (x & Hx & E); exists x; (split; [|exact E]).
  - apply rule_origin in Hx. unfold fromRule in Hx.
    unfold lengthTitles, minimumTitles, commonTitles, readabilityTitles in *.
    simpl in *. rewrite E in Hx.
    intuition (try congruence; subst t; discriminate).
  - apply in_runRules. right. now left.
Qed.

Lemma length_rules (parsed : ParsedMarkdown) :
  ((exists x, checkLength parsed = Some x
              /\ title x = "Consider keeping it concise")
   <-> 200 < lineCount parsed)
  /\ ((exists x, checkLength parsed = Some x /\ title x = "File is getting long")
      <-> 150 < lineCount parsed <= 200)
  /\ ((exists x, checkMinimumContent parsed = Some x
                 /\ title x = "Add more context")
      <-> lineCount parsed < 5)
  /\ ((exists x, checkMinimumContent parsed = Some x
                 /\ title x = "Add section headings")
      <-> 5 <= lineCount parsed /\ sections parsed = []).
Proof.
  unfold checkLength, checkMinimumContent.
  destruct parsed as [ss n m cbs hs]. cbn [lineCount sections].
  destruct (Nat.ltb_spec 200 n) as [H2|H2];
  destruct (Nat.ltb_spec 150 n) as [H1|H1];
  destruct (Nat.ltb_spec n 5) as [H5|H5];
  destruct ss as [|s0 ss]; cbn [List.length Nat.eqb];
    try lia; (split; [decide_some|split; [decide_some|split; decide_some]]).
Qed.

(** X4. On a non-blank input the result holds the suggestion Consider
    keeping it concise exactly when the input has more than 200 lines,
    File is getting long exactly for 151 to 200 lines, Add more context
    exactly for fewer than 5 lines, and Add section headings exactly for
    at least 5 lines without any section. *)
Theorem X4_length_rules (content : string) :
  every Js.isSpace content = false ->
  (titled "Consider keeping it concise" (suggestions (validateAgentsMd content))
   <-> 200 < lineCount (parseMarkdown content))
  /\ (titled "File is getting long" (suggestions (validateAgentsMd content))
      <-> 150 < lineCount (parseMarkdown content) <= 200)
  /\ (titled "Add more context" (suggestions (validateAgentsMd content))
      <-> lineCount (parseMarkdown content) < 5)
  /\ (titled "Add section headings" (suggestions (validateAgentsMd content))
      <-> 5 <= lineCount (parseMarkdown content)
          /\ sections (parseMarkdown content) = []).
Proof.
  intro H. apply nonblank in H.
  rewrite !(titled_result content _ H).
  rewrite !titled_checkLength by (unfold lengthTitles; simpl; tauto).
  rewrite !titled_checkMinimumContent by (unfold minimumTitles; simpl; tauto).
  apply length_rules.
Qed.

Lemma X4_length_rules_witness :
  every Js.isSpace "hello" = false
  /\ titled "Add more context" (suggestions (validateAgentsMd "hello")).
Proof.
  split; [reflexivity|].
  apply (proj1 (proj2 (proj2 (X4_length_rules "hello" eq_refl)))).
  vm_compute. lia.
Defined.

(** ** The positive suggestion and the missing topics *)

Lemma in_checkCommonSections (parsed : ParsedMarkdown) (x : ValidationSuggestion) :
  In x (checkCommonSections parsed)
  <-> (hasSetup (detectSectionKeywords (allText parsed)) = false
       /\ x = mkSuggestion tip "Consider adding setup instructions" high)
      \/ (hasTesting (detectSectionKeywords (allText parsed)) = false
          /\ x = mkSuggestion tip "Consider adding testing instructions" medium)
      \/ (hasCodeStyle (detectSectionKeywords (allText parsed)) = false
          /\ x = mkSuggestion tip "Consider documenting code style" low).
Proof.
  unfold checkCommonSections. cbv zeta.
  set (k := detectSectionKeywords (allText parsed)).
  destruct (hasSetup k), (hasTesting k), (hasCodeStyle k); simpl;
    intuition (try discriminate; subst; auto).
Qed.

Lemma titled_checkCommonSections (parsed : ParsedMarkdown) (content : string)
  (t : string) :
  In t commonTitles ->
  (exists x, In x (runRules parsed content) /\ title x = t)
  <-> exists x, In x (checkCommonSections parsed) /\ title x = t.
Proof.
  intro Ht. split; intros (x & Hx & E); exists x; (split; [|exact E]).
  - apply rule_origin in Hx. unfold fromRule in Hx.
    unfold lengthTitles, minimumTitles, commonTitles, readabilityTitles in *.
    simpl in *. rewrite E in Hx.
    intuition (try congruence; subst t; discriminate).
  - apply in_runRules. do 2 right. now left.
Qed.

(** Each missing-topic suggestion is in the result exactly when the
    keyword scan of the sections misses the topic. *)
Lemma missing_topics (content : string) :
  isBlank content = false ->
  (titled "Consider adding setup instructions"
          (suggestions (validateAgentsMd content))
   <-> hasSetup (detectSectionKeywords (allText (parseMarkdown content))) = false)
  /\ (titled "Consider adding testing instructions"
             (suggestions (validateAgentsMd content))
      <-> hasTesting (detectSectionKeywords (allText (parseMarkdown content)))
          = false)
  /\ (titled "Consider documenting code style"
             (suggestions (validateAgentsMd content))
      <-> hasCodeStyle (detectSectionKeywords (allText (parseMarkdown content)))
          = false).
Proof.
  intro H.
  rewrite !(titled_result content _ H).
  rewrite !titled_checkCommonSections by (unfold commonTitles; simpl; tauto).
  repeat split.
  all: try (intros (x & Hx & T); apply in_checkCommonSections in Hx;
            destruct Hx as [[E ->]|[[E ->]|[E ->]]];
            first [exact E | discriminate T]).
  all: intro E; eexists; (split; [apply in_checkCommonSections|]).
  - left. split; [exact E|reflexivity].
  - reflexivity.
  - right; left. split; [exact E|reflexivity].
  - reflexivity.
  - right; right. split; [exact E|reflexivity].
  - reflexivity.
Qed.

Lemma success_origin (content : string) (x : ValidationSuggestion) :
  In x (suggestions (validateAgentsMd content)) -> type x = success ->
  isBlank content = false
  /\ checkWellFormed (parseMarkdown content) content = Some x.
Proof.
  intros Hin Ht. destruct (isBlank content) eqn:Hb.
  - rewrite in_validate, (emitted_blank content Hb) in Hin.
    destruct Hin as [<-|[]]. discriminate.
  - split; [reflexivity|].
    apply (result_origin content x Hb) in Hin. unfold fromRule in Hin.
    destruct Hin as [H|[H|[H|[H|[H|[H|H]]]]]];
      try (destruct H as (_ & _ & H); congruence).
    tauto.
Qed.

Lemma checkWellFormed_some (parsed : ParsedMarkdown) (content : string)
  (x : ValidationSuggestion) :
  checkWellFormed parsed content = Some x ->
  10 <= lineCount parsed <= 150
  /\ 3 <= List.length (sections parsed)
  /\ 2 <= List.length
            (filter (fun b : bool => b)
               [hasSetup (detectSectionKeywords (allText parsed));
                hasTesting (detectSectionKeywords (allText parsed));
                hasCodeStyle (detectSectionKeywords (allText parsed))]).
Proof.
  unfold checkWellFormed. cbv zeta.
  destruct (Nat.leb_spec 10 (lineCount parsed));
    destruct (Nat.leb_spec (lineCount parsed) 150);
    destruct (Nat.leb_spec 3 (List.length (sections parsed)));
    cbn [andb]; try discriminate.
  destruct (_ || _); cbn [andb]; [|discriminate].
  destruct (Nat.leb_spec 2 (List.length
     (filter (fun b : bool => b)
        [hasSetup (detectSectionKeywords (allText parsed));
         hasTesting (detectSectionKeywords (allText parsed));
         hasCodeStyle (detectSectionKeywords (allText parsed))])));
    [|discriminate].
  intros _. repeat split; assumption.
Qed.

Lemma summary_success (l : list ValidationSuggestion) (z : Z)
  (x : ValidationSuggestion) :
  In x l -> type x = success ->
  generateSummary l z
  = "Your AGENTS.md is well-structured and ready to help agents work effectively!".
Proof.
  intros Hin Ht. unfold generateSummary. cbv zeta.
  assert (F : (0 <? List.length (filter isSuccess l)) = true).
  { apply filter_nonempty. exists x. split; [exact Hin|].
    unfold isSuccess. now rewrite Ht. }
  now rewrite F.
Qed.

(** X5. When the result holds a success suggestion, the summary is the
    well-structured sentence whatever the score, the input has 10 to 150
    lines and at least three sections, none of the length and
    minimum-content suggestions is in the result, and at most one of the
    three missing-topic suggestions is. *)
Theorem X5_success_result (content : string) (x : ValidationSuggestion) :
  In x (suggestions (validateAgentsMd content)) -> type x = success ->
  summary (validateAgentsMd content)
  = "Your AGENTS.md is well-structured and ready to help agents work effectively!"
  /\ 10 <= lineCount (parseMarkdown content) <= 150
  /\ 3 <= List.length (sections (parseMarkdown content))
  /\ (forall t, In t (lengthTitles ++ minimumTitles) ->
                ~ titled t (suggestions (validateAgentsMd content)))
  /\ ~ (titled "Consider adding setup instructions"
               (suggestions (validateAgentsMd content))
        /\ titled "Consider adding testing instructions"
                  (suggestions (validateAgentsMd content)))
  /\ ~ (titled "Consider adding setup instructions"
               (suggestions (validateAgentsMd content))
        /\ titled "Consider documenting code style"
                  (suggestions (validateAgentsMd content)))
  /\ ~ (titled "Consider adding testing instructions"
               (suggestions (validateAgentsMd content))
        /\ titled "Consider documenting code style"
                  (suggestions (validateAgentsMd content))).
Proof.
  intros Hin Ht.
  destruct (success_origin content x Hin Ht) as [Hb Hw].
  destruct (checkWellFormed_some _ _ _ Hw) as (Hl & Hs & Hk).
  split.
  { rewrite (validate_nonblank content Hb) in *. cbv zeta in *. simpl in *.
    eapply summary_success; eassumption. }
  split; [exact Hl|]. split; [exact Hs|]. split.
  { intros t Hin'. rewrite (titled_result content t Hb).
    pose proof (length_rules (parseMarkdown content)) as (L1 & L2 & L3 & L4).
    unfold lengthTitles, minimumTitles in Hin'. simpl in Hin'.
    destruct Hin' as [<-|[<-|[<-|[<-|[]]]]].
    - rewrite titled_checkLength by (unfold lengthTitles; simpl; tauto).
      rewrite L1. lia.
    - rewrite titled_checkLength by (unfold lengthTitles; simpl; tauto).
      rewrite L2. lia.
    - rewrite titled_checkMinimumContent by (unfold minimumTitles; simpl; tauto).
      rewrite L3. lia.
    - rewrite titled_checkMinimumContent by (unfold minimumTitles; simpl; tauto).
      rewrite L4. intros [_ E]. rewrite E in Hs. simpl in Hs. lia. }
  destruct (missing_topics content Hb) as (M1 & M2 & M3).
  rewrite M1, M2, M3.
  destruct (hasSetup _), (hasTesting _), (hasCodeStyle _); simpl in Hk;
    repeat split; intros [? ?]; try discriminate; lia.
Qed.

(** X6. A non-blank input whose parse has no section gets all three
    missing-topic suggestions: the keyword scan reads the sections only,
    so text outside every section is not searched. *)
Theorem X6_no_sections_all_topics_missing (content : string) :
  every Js.isSpace content = false ->
  sections (parseMarkdown content) = [] ->
  In (mkSuggestion tip "Consider adding setup instructions" high)
     (suggestions (validateAgentsMd content))
  /\ In (mkSuggestion tip "Consider adding testing instructions" medium)
        (suggestions (validateAgentsMd content))
  /\ In (mkSuggestion tip "Consider documenting code style" low)
        (suggestions (validateAgentsMd content)).
Proof.
  intros H Hs. apply nonblank in H.
  rewrite !in_validate, (emitted_nonblank content H), !in_runRules.
  rewrite !in_checkCommonSections. unfold allText. rewrite Hs.
  repeat split; do 2 right; left.
  - left. split; reflexivity.
  - right; left. split; reflexivity.
  - right; right. split; reflexivity.
Qed.

Lemma X6_no_sections_all_topics_missing_witness :
  every Js.isSpace "run the test setup" = false
  /\ sections (parseMarkdown "run the test setup") = []
  /\ In (mkSuggestion tip "Consider adding setup instructions" high)
        (suggestions (validateAgentsMd "run the test setup")).
Proof.
  split; [reflexivity|]. split; [reflexivity|].
  exact (proj1 (X6_no_sections_all_topics_missing "run the test setup"
                  eq_refl eq_refl)).
Defined.

Lemma X5_success_result_witness :
  In (mkSuggestion success "Well-structured AGENTS.md" high)
     (suggestions (validateAgentsMd
        (text ["# Setup"; "install with React"; "## Testing";
               "run `npm test` now"; "## Code style"; "lint it please";
               ""; ""; ""; ""; ""])))
  /\ summary (validateAgentsMd
        (text ["# Setup"; "install with React"; "## Testing";
               "run `npm test` now"; "## Code style"; "lint it please";
               ""; ""; ""; ""; ""]))
     = "Your AGENTS.md is well-structured and ready to help agents work effectively!".
Proof.
  assert (H : In (mkSuggestion success "Well-structured AGENTS.md" high)
     (suggestions (validateAgentsMd
        (text ["# Setup"; "install with React"; "## Testing";
               "run `npm test` now"; "## Code style"; "lint it please";
               ""; ""; ""; ""; ""]))))
    by (vm_compute; now left).
  split; [exact H|].
  exact (proj1 (X5_success_result _ _ H eq_refl)).
Defined.

(** ** Counts, levels and line numbers of a parse *)

(** X7. The line count of a parse is the number of newline code units of
    the input plus one: it is never 0, and a trailing newline counts as
    one more, empty, line. *)
Theorem X7_line_count (content : string) :
  lineCount (parseMarkdown content) = S (newlines content)
  /\ lineCount (parseMarkdown (content ++ nl))
     = S (lineCount (parseMarkdown content)).
Proof.
  assert (E : forall c, lineCount (parseMarkdown c) = S (newlines c)).
  { intro c. unfold parseMarkdown, parseLines, finish. simpl.
    apply split_length. }
  split; [apply E|].
  rewrite !E, newlines_app. simpl. lia.
Qed.

Lemma trimEnd_idem (s : string) : Js.trimEnd (Js.trimEnd s) = Js.trimEnd s.
Proof.
  induction s as [|c r IH]; [reflexivity|].
  simpl. destruct (Js.trimEnd r) as [|d r'] eqn:E.
  - destruct (Js.isSpace c) eqn:Hc; simpl; [reflexivity|now rewrite Hc].
  - change (Js.trimEnd (String c (String d r')))
      with (match Js.trimEnd (String d r') with
            | EmptyString =>
                if Js.isSpace c then EmptyString else String c EmptyString
            | r0 => String c r0
            end).
    now rewrite IH.
Qed.

Lemma trimStart_nonspace (c : ascii) (r : string) :
  Js.isSpace c = false ->
  exists r', Js.trimEnd (String c r) = String c r'.
Proof.
  intro H. simpl. destruct (Js.trimEnd r) as [|d r'].
  - rewrite H. now exists EmptyString.
  - now exists (String d r').
Qed.

Lemma trim_idem (s : string) : Js.trim (Js.trim s) = Js.trim s.
Proof.
  unfold Js.trim.
  destruct (trimStart_shape s) as [E|(c & r & E & Hc)]; rewrite E.
  - reflexivity.
  - destruct (trimStart_nonspace c r Hc) as (r' & E').
    assert (T : Js.trimStart (Js.trimEnd (String c r)) = Js.trimEnd (String c r)).
    { rewrite E'. simpl. now rewrite Hc. }
    rewrite T. apply trimEnd_idem.
Qed.

Lemma orElse_label (s : string) :
  Js.orElse (Js.trim s) "text" <> EmptyString
  /\ Js.trim (Js.orElse (Js.trim s) "text") = Js.orElse (Js.trim s) "text".
Proof.
  unfold Js.orElse. destruct (Js.trim s) as [|c r] eqn:E.
  - split; [discriminate|reflexivity].
  - split; [discriminate|]. rewrite <- E. apply trim_idem.
Qed.

Lemma step_labelsOk (st : Scan) (i : nat) (line : string) :
  labelsOk st -> labelsOk (step st i line).
Proof.
  unfold labelsOk. step_cases st line; intros [H1 H2]; try (split; assumption).
  - split; [|exact I]. apply Forall_app. split; [exact H1|].
    constructor; [exact H2|constructor].
  - split; [exact H1|]. apply orElse_label.
  - split; [exact H1|]. apply orElse_label.
Qed.

(** X8. Every code block of a parse has a language that is not empty and
    carries no whitespace around it: a fence without a label gets the
    language text. *)
Theorem X8_block_language (content : string) (b : CodeBlock) :
  In b (codeBlocks (parseMarkdown content)) ->
  cb_language b <> EmptyString /\ Js.trim (cb_language b) = cb_language b.
Proof.
  unfold parseMarkdown, parseLines, finish. simpl.
  assert (H : labelsOk (forEachFrom 0 (Js.split content) scan0)).
  { apply forEachFrom_ind.
    - intros; now apply step_labelsOk.
    - split; [constructor|exact I]. }
  destruct H as [H _]. rewrite Forall_forall in H. apply H.
Qed.

Lemma X8_block_language_witness :
  In (mkCodeBlock "text" (linesText ["npm test"]) 1)
     (codeBlocks (parseMarkdown (text ["```"; "npm test"; "```"])))
  /\ cb_language (mkCodeBlock "text" (linesText ["npm test"]) 1) <> EmptyString.
Proof.
  assert (H : In (mkCodeBlock "text" (linesText ["npm test"]) 1)
                 (codeBlocks (parseMarkdown (text ["```"; "npm test"; "```"]))))
    by (vm_compute; now left).
  split; [exact H|].
  exact (proj1 (X8_block_language _ _ H)).
Defined.

Lemma headingOf_ok (k : nat) (l : string) (h : Heading) :
  In h (headingOf (k, l)) ->
  Js.trim (h_text h) = h_text h /\ 1 <= h_level h <= 6 /\ h_lineNumber h = k.
Proof.
  intro H. apply in_headingOf in H as (g1 & g2 & E & ->). simpl.
  apply headingMatch_sound in E as (n & w & -> & Hn & _).
  rewrite hashes_length. split; [apply trim_idem|]. split; [exact Hn|reflexivity].
Qed.

Lemma headingOf_numbers (k : nat) (l : string) :
  map h_lineNumber (headingOf (k, l)) = [] \/ map h_lineNumber (headingOf (k, l)) = [k].
Proof.
  unfold headingOf. simpl. destruct (headingMatch l) as [[g1 g2]|]; simpl; auto.
Qed.

Lemma outside_heading_numbers (lines : list string) (inside : bool) (i : nat) :
  StronglySorted lt
    (map h_lineNumber (flat_map headingOf (outsideLines inside i lines)))
  /\ Forall (fun n => i < n <= i + List.length lines)
       (map h_lineNumber (flat_map headingOf (outsideLines inside i lines))).
Proof.
  revert inside i. induction lines as [|l r IH]; intros inside i; simpl.
  - split; constructor.
  - assert (W : forall b, Forall (fun n => i < n <= i + S (List.length r))
                     (map h_lineNumber
                        (flat_map headingOf (outsideLines b (S i) r)))).
    { intro b. eapply Forall_impl; [|apply (IH b (S i))]. simpl; intros; lia. }
    destruct (isFenceLine l); [split; [apply IH|apply W]|].
    destruct inside; [split; [apply IH|apply W]|].
    simpl. rewrite map_app.
    destruct (headingOf_numbers (i + 1) l) as [E|E]; rewrite E; simpl.
    + split; [apply IH|apply W].
    + split.
      * constructor; [apply IH|].
        eapply Forall_impl; [|apply (IH false (S i))]. simpl; intros; lia.
      * constructor; [lia|apply W].
Qed.

Lemma headings_keyOk (content : string) :
  Forall (keyOk (lineCount (parseMarkdown content)))
         (map headingKey (headings (parseMarkdown content))).
Proof.
  apply Forall_forall. intros k Hk.
  apply in_map_iff in Hk as (h & <- & Hh).
  assert (N : 0 < h_lineNumber h <= 0 + List.length (Js.split content)).
  { pose proof (proj2 (outside_heading_numbers (Js.split content) false 0)) as B.
    rewrite <- parse_headings, Forall_forall in B. apply B. now apply in_map. }
  rewrite parse_headings in Hh.
  apply in_flat_map in Hh as ([j l] & _ & Hh).
  apply headingOf_ok in Hh as (T & L & _).
  unfold keyOk, headingKey. simpl.
  split; [exact T|]. split; [exact L|]. lia.
Qed.

(** X9. In every parse the text of a heading carries no whitespace
    around it, its level lies between 1 and 6, its line number between 1
    and the line count, and the line numbers of the headings increase
    strictly.  The same holds of the titles, levels and line numbers of
    the sections. *)
Theorem X9_headings_well_formed (content : string) :
  Forall (fun h => Js.trim (h_text h) = h_text h
                   /\ 1 <= h_level h <= 6
                   /\ 1 <= h_lineNumber h <= lineCount (parseMarkdown content))
         (headings (parseMarkdown content))
  /\ StronglySorted lt (map h_lineNumber (headings (parseMarkdown content)))
  /\ Forall (fun s => Js.trim (sec_title s) = sec_title s
                      /\ 1 <= sec_level s <= 6
                      /\ 1 <= sec_lineNumber s
                         <= lineCount (parseMarkdown content))
            (sections (parseMarkdown content))
  /\ StronglySorted lt (map sec_lineNumber (sections (parseMarkdown content))).
Proof.
  pose proof (headings_keyOk content) as K.
  pose proof (proj1 (outside_heading_numbers (Js.split content) false 0)) as S0.
  rewrite <- parse_headings in S0.
  split; [|split; [exact S0|split]].
  - rewrite Forall_map in K. exact K.
  - rewrite <- parse_keys, Forall_map in K. exact K.
  - replace (map sec_lineNumber (sections (parseMarkdown content)))
      with (map snd (map sectionKey (sections (parseMarkdown content))))
      by (rewrite map_map; reflexivity).
    rewrite parse_keys, map_map. exact S0.
Qed.

(** ** The content of blocks and sections *)

Lemma step_opens_block (st : Scan) (i : nat) (line : string) :
  isFenceLine line = true -> inCodeBlock st = false ->
  currentCodeBlock (step st i line)
  = Some (mkCodeBlock (fenceLanguage line) EmptyString (i + 1)).
Proof.
  step_cases st line; simpl; intros Hf Hin; try discriminate; reflexivity.
Qed.

Lemma step_fills_block (st : Scan) (i : nat) (line : string) (b : CodeBlock) :
  isFenceLine line = false -> inCodeBlock st = true ->
  currentCodeBlock st = Some b ->
  currentCodeBlock (step st i line)
  = Some (mkCodeBlock (cb_language b) (cb_code b ++ line ++ nl) (cb_lineNumber b)).
Proof.
  step_cases st line; simpl; intros Hf Hin Hb; try discriminate;
    now injection Hb as ->.
Qed.

Lemma sapp_linesText (c l : string) (ls : list string) :
  ((c ++ l ++ nl) ++ linesText ls)%string = (c ++ linesText (l :: ls))%string.
Proof.
  change (linesText (l :: ls)) with (l ++ nl ++ linesText ls)%string.
  now rewrite !sapp_assoc.
Qed.

Lemma scan_fills_block (body : list string) (i : nat) (st : Scan) (b : CodeBlock) :
  forallb (fun l => negb (isFenceLine l)) body = true ->
  inCodeBlock st = true -> fenceConsistent st ->
  currentCodeBlock st = Some b ->
  currentCodeBlock (forEachFrom i body st)
  = Some (mkCodeBlock (cb_language b) (cb_code b ++ linesText body)
                      (cb_lineNumber b))
  /\ inCodeBlock (forEachFrom i body st) = true.
Proof.
  revert i st b. induction body as [|l r IH]; intros i st b Hall Hin Hc Hb.
  - simpl. rewrite sapp_nil_r. destruct b. split; assumption.
  - simpl in Hall. apply andb_true_iff in Hall as [Hl Hr].
    apply negb_true_iff in Hl. simpl forEachFrom.
    destruct (step_inside st i l Hl Hin Hc) as (_ & _ & _ & _ & Hin').
    destruct (IH (S i) (step st i l) _ Hr Hin'
                 (step_fenceConsistent _ _ _ Hc)
                 (step_fills_block st i l b Hl Hin Hb)) as [E1 E2].
    split; [|exact E2]. rewrite E1. simpl. now rewrite sapp_linesText.
Qed.

Lemma step_closes_block (st : Scan) (i : nat) (line : string) (b : CodeBlock) :
  isFenceLine line = true -> inCodeBlock st = true ->
  currentCodeBlock st = Some b ->
  In b (sc_codeBlocks (step st i line)).
Proof.
  step_cases st line; simpl; intros Hf Hin Hb; try discriminate.
  injection Hb as ->. apply in_or_app. right. now left.
Qed.

Lemma step_keeps_blocks (st : Scan) (i : nat) (line : string) (b : CodeBlock) :
  In b (sc_codeBlocks st) -> In b (sc_codeBlocks (step st i line)).
Proof.
  step_cases st line; intro H; try exact H.
  apply in_or_app. now left.
Qed.

(** X10. A fence that is opened outside a fence and closed by the next
    marker yields a block whose language is the trimmed label of the
    opening line (text when there is none), whose line number is that of
    the opening line, and whose code is the lines in between, each as it
    is and followed by a newline. *)
Theorem X10_fenced_block (content : string) (pre body post : list string)
  (o c : string) :
  Js.split content = pre ++ o :: body ++ c :: post ->
  isFenceLine o = true -> isFenceLine c = true ->
  Nat.even (List.length (fenceNumbers 0 pre)) = true ->
  forallb (fun l => negb (isFenceLine l)) body = true ->
  In (mkCodeBlock (fenceLanguage o) (linesText body) (List.length pre + 1))
     (codeBlocks (parseMarkdown content)).
Proof.
  intros Hs Ho Hc He Hb.
  unfold parseMarkdown, parseLines, finish. rewrite Hs. simpl.
  rewrite forEachFrom_app. simpl.
  set (st0 := forEachFrom 0 pre scan0).
  assert (Hout : inCodeBlock st0 = false).
  { unfold st0. rewrite scan_inCodeBlock. simpl.
    now rewrite <- Nat.negb_even, He. }
  assert (C0 : fenceConsistent st0) by apply scan_fenceConsistent.
  set (st1 := step st0 (List.length pre) o).
  assert (C1 : fenceConsistent st1) by now apply step_fenceConsistent.
  assert (I1 : inCodeBlock st1 = true).
  { unfold st1. rewrite step_inCodeBlock, Ho, Hout. reflexivity. }
  pose proof (step_opens_block st0 (List.length pre) o Ho Hout) as B1.
  fold st1 in B1.
  rewrite forEachFrom_app. simpl.
  destruct (scan_fills_block body (S (List.length pre)) st1 _ Hb I1 C1 B1)
    as [B2 I2].
  simpl in B2.
  apply forEachFrom_ind; [intros; now apply step_keeps_blocks|].
  eapply step_closes_block; eassumption.
Qed.

Lemma X10_fenced_block_witness :
  In (mkCodeBlock "bash" (linesText ["# not a heading"; "npm test"]) 3)
     (codeBlocks (parseMarkdown
        (text ["# T"; "intro"; " ```bash "; "# not a heading"; "npm test";
               "```"; "end"]))).
Proof.
  apply (X10_fenced_block
           (text ["# T"; "intro"; " ```bash "; "# not a heading"; "npm test";
                  "```"; "end"])
           ["# T"; "intro"] ["# not a heading"; "npm test"] ["end"]
           " ```bash " "```"); reflexivity.
Defined.

Lemma step_opens_section (st : Scan) (i : nat) (line g1 g2 : string) :
  isFenceLine line = false -> inCodeBlock st = false ->
  headingMatch line = Some (g1, g2) ->
  currentSection (step st i line)
  = Some (mkSection (Js.trim g2) (String.length g1) (i + 1) EmptyString)
  /\ inCodeBlock (step st i line) = false.
Proof.
  step_cases st line; simpl; intros Hf Hin Hm; try discriminate;
    injection Hm as <- <-; split; reflexivity.
Qed.

Lemma step_fills_section (st : Scan) (i : nat) (line : string) (sec : MdSection) :
  plainLine line = true -> inCodeBlock st = false ->
  currentSection st = Some sec ->
  currentSection (step st i line)
  = Some (mkSection (sec_title sec) (sec_level sec) (sec_lineNumber sec)
                    (sec_content sec ++ line ++ nl))
  /\ inCodeBlock (step st i line) = false.
Proof.
  unfold plainLine. intro Hp. apply andb_true_iff in Hp as [Hf Hm].
  apply negb_true_iff in Hf. revert Hf Hm.
  step_cases st line; simpl; intros Hf Hm Hin Hs; try discriminate;
    injection Hs as ->; split; reflexivity.
Qed.

Lemma scan_fills_section (body : list string) (i : nat) (st : Scan)
  (sec : MdSection) :
  forallb plainLine body = true ->
  inCodeBlock st = false ->
  currentSection st = Some sec ->
  currentSection (forEachFrom i body st)
  = Some (mkSection (sec_title sec) (sec_level sec) (sec_lineNumber sec)
                    (sec_content sec ++ linesText body))
  /\ inCodeBlock (forEachFrom i body st) = false.
Proof.
  revert i st sec. induction body as [|l r IH]; intros i st sec Hall Hin Hs.
  - simpl. rewrite sapp_nil_r. destruct sec. split; assumption.
  - simpl in Hall. apply andb_true_iff in Hall as [Hl Hr]. simpl forEachFrom.
    destruct (step_fills_section st i l sec Hl Hin Hs) as [E I'].
    destruct (IH (S i) (step st i l) _ Hr I' E) as [E1 E2].
    split; [|exact E2]. rewrite E1. simpl. now rewrite sapp_linesText.
Qed.

Lemma step_closes_section (st : Scan) (i : nat) (line : string) (sec : MdSection) :
  isFenceLine line = false -> inCodeBlock st = false ->
  headingMatch line <> None ->
  currentSection st = Some sec ->
  In sec (sc_sections (step st i line)).
Proof.
  step_cases st line; simpl; intros Hf Hin Hm Hs; try discriminate;
    try congruence.
  all: simpl in Hs; rewrite Hs; apply in_or_app; right; now left.
Qed.

Lemma step_keeps_sections (st : Scan) (i : nat) (line : string) (sec : MdSection) :
  In sec (sc_sections st) -> In sec (sc_sections (step st i line)).
Proof.
  step_cases st line; intro H; try exact H.
  all: destruct cur; [apply in_or_app; now left|exact H].
Qed.

Lemma section_of_heading (content : string) (pre body rest : list string)
  (h g1 g2 : string) :
  Js.split content = pre ++ h :: body ++ rest ->
  Nat.even (List.length (fenceNumbers 0 pre)) = true ->
  isFenceLine h = false -> headingMatch h = Some (g1, g2) ->
  forallb plainLine body = true ->
  match rest with
  | [] => True
  | r :: _ => isFenceLine r = false /\ headingMatch r <> None
  end ->
  In (mkSection (Js.trim g2) (String.length g1) (List.length pre + 1)
                (linesText body))
     (sections (parseMarkdown content)).
Proof.
  intros Hs He Hf Hm Hb Hr.
  unfold parseMarkdown, parseLines. rewrite finish_sections, Hs.
  rewrite forEachFrom_app. simpl.
  set (st0 := forEachFrom 0 pre scan0).
  assert (Hout : inCodeBlock st0 = false).
  { unfold st0. rewrite scan_inCodeBlock. simpl.
    now rewrite <- Nat.negb_even, He. }
  destruct (step_opens_section st0 (List.length pre) h g1 g2 Hf Hout Hm)
    as [S1 I1].
  rewrite forEachFrom_app.
  destruct (scan_fills_section body (S (List.length pre)) _ _ Hb I1 S1)
    as [S2 I2].
  simpl in S2.
  destruct rest as [|r rs].
  - simpl. unfold openSections. rewrite S2. apply in_or_app. right. now left.
  - destruct Hr as [Hrf Hrm]. simpl forEachFrom.
    assert (G : forall st, In (mkSection (Js.trim g2) (String.length g1)
                                 (List.length pre + 1) (linesText body))
                              (sc_sections st) ->
                           In (mkSection (Js.trim g2) (String.length g1)
                                 (List.length pre + 1) (linesText body))
                              (openSections st)).
    { intros st H. unfold openSections.
      destruct (currentSection st); [apply in_or_app; now left|exact H]. }
    apply G.
    apply forEachFrom_ind; [intros; now apply step_keeps_sections|].
    eapply step_closes_section; eassumption.
Qed.

(** X11. A heading met outside a fence and followed by plain lines, up to
    the end of the input or to the next heading, yields a section with the
    trimmed text and the level of the heading, its line number, and the
    plain lines as content, each followed by a newline. *)
Theorem X11_section_content (content : string) (pre body rest : list string)
  (h g1 g2 : string) :
  Js.split content = pre ++ h :: body ++ rest ->
  Nat.even (List.length (fenceNumbers 0 pre)) = true ->
  isFenceLine h = false -> headingMatch h = Some (g1, g2) ->
  forallb plainLine body = true ->
  match rest with
  | [] => True
  | r :: _ => isFenceLine r = false /\ headingMatch r <> None
  end ->
  In (mkSection (Js.trim g2) (String.length g1) (List.length pre + 1)
                (linesText body))
     (sections (parseMarkdown content)).
Proof.
  intros Hs He Hf Hm Hb Hr.
  exact (section_of_heading content pre body rest h g1 g2 Hs He Hf Hm Hb Hr).
Qed.

Lemma X11_section_content_witness :
  In (mkSection "Setup" 2 3 (linesText ["- run `npm install`"; ""]))
     (sections (parseMarkdown
        (text ["# T"; ""; "##  Setup "; "- run `npm install`"; ""; "## Next"]))).
Proof.
  apply (X11_section_content
           (text ["# T"; ""; "##  Setup "; "- run `npm install`"; ""; "## Next"])
           ["# T"; ""] ["- run `npm install`"; ""] ["## Next"]
           "##  Setup " "##" "Setup ");
    try reflexivity.
  split; [reflexivity|discriminate].
Defined.

(** ** The commands in inline code *)

Lemma isBacktick_eq (c : ascii) : Js.isBacktick c = true -> c = Js.backtick.
Proof.
  unfold Js.isBacktick, Js.code, Js.backtick. intro H. apply Nat.eqb_eq in H.
  rewrite <- H. symmetry. apply ascii_nat_embedding.
Qed.

Lemma inlineCode_sound (prev : option ascii) (s code : string) (after : Rx.pos) :
  inlineCode (prev, s) = Some (code, after) ->
  s = span code (snd after)
  /\ code <> EmptyString /\ every notBacktick code = true.
Proof.
  unfold inlineCode. intro H. apply hd_error_in in H.
  apply in_flat_map in H as (a & Ha & H).
  apply in_flat_map in H as (b & Hb & H).
  apply in_map_iff in H as (e & He & Hc).
  apply cls_in in Ha as (t & Hs & Ht & _). simpl in Hs.
  apply plus_sound in Hb as (d & w & Hd & Hdp & Hw).
  apply cls_in in Hc as (t' & Hs' & Ht' & _).
  assert (E1 : code = String d w).
  { replace code with (Rx.consumed (snd a) (snd b)) by congruence.
    rewrite Hd. apply (consumed_app (String d w) (snd b)). }
  assert (E2 : after = e) by congruence.
  subst code after.
  rewrite (isBacktick_eq t Ht) in Hs. rewrite (isBacktick_eq t' Ht') in Hs'.
  split.
  - unfold span. rewrite Hs, Hd, Hs'. reflexivity.
  - split; [discriminate|]. simpl. now rewrite Hdp.
Qed.

Lemma commandOf_cons (ch : ascii) (r c : string) :
  commandOf r c -> commandOf (String ch r) c.
Proof.
  intros (H1 & H2 & H3 & a & b & E). repeat split; try assumption.
  exists (String ch a), b. simpl. now rewrite E.
Qed.

Lemma execLoop_commands (s : string) (skip : nat) (prev : option ascii) :
  Forall (commandOf s) (execLoop skip prev s).
Proof.
  revert skip prev. induction s as [|ch r IH]; intros skip prev; simpl.
  - constructor.
  - assert (T : forall k p, Forall (commandOf (String ch r)) (execLoop k p r)).
    { intros k p. eapply Forall_impl; [|apply IH].
      intros c. apply commandOf_cons. }
    destruct skip as [|k]; [|apply T].
    destruct (inlineCode (prev, String ch r)) as [[code after]|] eqn:E;
      [|apply T].
    apply Forall_app. split; [|apply T].
    destruct (looksLikeCommand code) eqn:L; [|constructor].
    constructor; [|constructor].
    apply inlineCode_sound in E as (E1 & E2 & E3).
    repeat split; try assumption.
    exists EmptyString, (snd after). exact E1.
Qed.

(** X12. Every command that [extractCommands] returns is a span of the
    input between two backticks: it is not empty, holds no backtick, and
    passes the command test (a space, a tool prefix, or one of test,
    build, dev, start inside). *)
Theorem X12_extracted_commands (content c : string) :
  In c (extractCommands content) ->
  c <> EmptyString
  /\ every notBacktick c = true
  /\ looksLikeCommand c = true
  /\ exists a b, content = (a ++ span c b)%string.
Proof.
  intro H. pose proof (execLoop_commands content 0 None) as F.
  rewrite Forall_forall in F. exact (F c H).
Qed.

Lemma X12_extracted_commands_witness :
  In "npm test" (extractCommands "Run `npm test` or `x`.")
  /\ looksLikeCommand "npm test" = true.
Proof.
  assert (H : In "npm test" (extractCommands "Run `npm test` or `x`."))
    by (vm_compute; now left).
  split; [exact H|].
  exact (proj1 (proj2 (proj2 (X12_extracted_commands _ _ H)))).
Defined.

Lemma execLoop_prev (s : string) (k : nat) (p p' : option ascii) :
  execLoop k p s = execLoop k p' s.
Proof. destruct s as [|c r]; [reflexivity|]. destruct k; reflexivity. Qed.

Lemma execLoop_plain (a s : string) (p p' : option ascii) :
  every notBacktick a = true -> execLoop 0 p (a ++ s) = execLoop 0 p' s.
Proof.
  revert p. induction a as [|ch a IH]; intros p H.
  - apply execLoop_prev.
  - simpl in H. apply andb_true_iff in H as [Hc Ha].
    change (execLoop 0 p (String ch a ++ s))
      with (match inlineCode (p, String ch (a ++ s)) with
            | Some (code, after) =>
                (if looksLikeCommand code then [code] else [])
                ++ execLoop (String.length (a ++ s) - String.length (snd after))
                            (Some ch) (a ++ s)
            | None => execLoop 0 (Some ch) (a ++ s)
            end).
    assert (N : inlineCode (p, String ch (a ++ s)) = None).
    { unfold inlineCode, Rx.cls. simpl.
      unfold notBacktick in Hc. apply negb_true_iff in Hc. now rewrite Hc. }
    rewrite N. now apply IH.
Qed.

Lemma execLoop_skip (w s : string) (k : nat) (p p' : option ascii) :
  execLoop (String.length w + k) p (w ++ s) = execLoop k p' s.
Proof.
  revert p. induction w as [|ch w IH]; intro p; simpl.
  - apply execLoop_prev.
  - apply IH.
Qed.

Lemma starFrom_head (q : ascii -> bool) (w : string) (t : ascii) (rest : string)
  (prev : option ascii) :
  every q w = true -> q t = false ->
  exists o l, Rx.starFrom q prev (w ++ String t rest) = (o, String t rest) :: l.
Proof.
  revert prev. induction w as [|c w IH]; intros prev Hw Ht; simpl.
  - rewrite Ht. now exists prev, [].
  - simpl in Hw. apply andb_true_iff in Hw as [Hc Hw]. rewrite Hc.
    destruct (IH (Some c) Hw Ht) as (o & l & E). rewrite E.
    now exists o, (l ++ [(prev, String c (w ++ String t rest))]).
Qed.

Lemma inlineCode_complete (p : option ascii) (c b : string) :
  c <> EmptyString -> every notBacktick c = true ->
  inlineCode (p, span c b) = Some (c, (Some Js.backtick, b)).
Proof.
  intros Hne Hc. destruct c as [|d w]; [congruence|].
  simpl in Hc. apply andb_true_iff in Hc as [Hd Hw].
  destruct (starFrom_head notBacktick w Js.backtick b (Some d) Hw eq_refl)
    as (o & l & E).
  unfold inlineCode, span, Rx.plus, Rx.seq, Rx.cls, Rx.star. simpl.
  rewrite Hd. simpl. rewrite E. simpl.
  f_equal. f_equal.
  apply (consumed_app (String d w) (String Js.backtick b)).
Qed.

(** X13. [extractCommands] works span by span: text without a backtick
    yields no command, and when such text is followed by a span, the
    result is that span, if it passes the command test, followed by the
    commands of what comes after the span. *)
Theorem X13_commands_span_by_span (a c b : string) :
  every notBacktick a = true ->
  extractCommands a = []
  /\ (c <> EmptyString -> every notBacktick c = true ->
      extractCommands (a ++ span c b)
      = (if looksLikeCommand c then [c] else []) ++ extractCommands b).
Proof.
  intro Ha. unfold extractCommands. split.
  - rewrite <- (sapp_nil_r a). now rewrite (execLoop_plain a "" None None Ha).
  - intros Hne Hc.
    rewrite (execLoop_plain a (span c b) None None Ha).
    unfold span at 1.
    change (execLoop 0 None (String Js.backtick (c ++ String Js.backtick b)))
      with (match inlineCode (None, span c b) with
            | Some (code, after) =>
                (if looksLikeCommand code then [code] else [])
                ++ execLoop (String.length (c ++ String Js.backtick b)
                             - String.length (snd after))
                            (Some Js.backtick) (c ++ String Js.backtick b)
            | None => execLoop 0 (Some Js.backtick) (c ++ String Js.backtick b)
            end).
    rewrite (inlineCode_complete None c b Hne Hc). f_equal. simpl snd.
    replace (String.length (c ++ String Js.backtick b) - String.length b)
      with (String.length (c ++ String Js.backtick "") + 0).
    + replace (c ++ String Js.backtick b)%string
        with ((c ++ String Js.backtick "") ++ b)%string
        by (rewrite sapp_assoc; reflexivity).
      apply execLoop_skip.
    + rewrite !slength_app. simpl. lia.
Qed.

Lemma X13_commands_span_by_span_witness :
  every notBacktick "Run " = true
  /\ extractCommands "Run `npm test` or `x`." = ["npm test"].
Proof.
  split; [reflexivity|].
  exact (proj2 (X13_commands_span_by_span "Run " "npm test" " or `x`." eq_refl)
           ltac:(discriminate) eq_refl).
Defined.

(** ** The version check *)

Lemma testFrom_sound (a : Rx.rx) (s : string) (prev : option ascii) :
  Rx.testFrom a prev s = true ->
  exists prev' u t, s = (u ++ t)%string /\ a (prev', t) <> [].
Proof.
  revert prev. induction s as [|c r IH]; intro prev; simpl.
  - rewrite orb_false_r. unfold Rx.matchesAt. intro H.
    exists prev, EmptyString, EmptyString. split; [reflexivity|].
    destruct (a (prev, EmptyString)); [discriminate|discriminate].
  - intro H. apply orb_true_iff in H as [H|H].
    + exists prev, EmptyString, (String c r). split; [reflexivity|].
      unfold Rx.matchesAt in H.
      destruct (a (prev, String c r)); [discriminate|discriminate].
    + apply IH in H as (prev' & u & t & -> & Ht).
      now exists prev', (String c u), t.
Qed.

Lemma in_seqs_app (pre post : list Rx.rx) (st q : Rx.pos) :
  In q (seqs (pre ++ post) st) ->
  exists m, In m (seqs pre st) /\ In q (seqs post m).
Proof.
  revert st. induction pre as [|r pre IH]; intros st H; simpl in *.
  - exists st. split; [now left|exact H].
  - unfold Rx.seq in *. apply in_flat_map in H as (x & Hx & H).
    apply IH in H as (m & Hm & Hq). exists m. split; [|exact Hq].
    apply in_flat_map. now exists x.
Qed.

Lemma forward_wb : forward Rx.wb.
Proof.
  intros a b. unfold Rx.wb. destruct (xorb _ _); simpl; [|contradiction].
  intros [<-|[]]. now exists EmptyString.
Qed.

Lemma forward_plus (p : ascii -> bool) : forward (Rx.plus p).
Proof.
  intros a b H. apply plus_sound in H as (c & w & E & _).
  exists (String c w). now rewrite E.
Qed.

Lemma forward_cls (p : ascii -> bool) : forward (Rx.cls p).
Proof.
  intros a b H. apply cls_in in H as (c & E & _).
  exists (String c EmptyString). now rewrite E.
Qed.

Lemma forward_seq (r1 r2 : Rx.rx) :
  forward r1 -> forward r2 -> forward (Rx.seq r1 r2).
Proof.
  intros F1 F2 a b H. unfold Rx.seq in H.
  apply in_flat_map in H as (m & Hm & H).
  apply F1 in Hm as (w1 & E1). apply F2 in H as (w2 & E2).
  exists (w1 ++ w2)%string. now rewrite E1, E2, sapp_assoc.
Qed.

Lemma forward_eps : forward Rx.eps.
Proof. intros a b [<-|[]]. now exists EmptyString. Qed.

Lemma forward_seqs (rs : list Rx.rx) : Forall forward rs -> forward (seqs rs).
Proof.
  induction 1 as [|r rs Hr Hrs IH]; simpl.
  - apply forward_eps.
  - now apply forward_seq.
Qed.

(** A pattern that asks for a digit after forward steps matches only
    where a digit follows. *)
Lemma digit_needed (pre tail : list Rx.rx) (st q : Rx.pos) :
  Forall forward pre ->
  In q (seqs (pre ++ Rx.plus Js.isDigit :: tail) st) ->
  every notDigit (snd st) = false.
Proof.
  intros F H. apply in_seqs_app in H as (m & Hm & H).
  apply (forward_seqs pre F) in Hm as (w & E).
  simpl in H. unfold Rx.seq in H. apply in_flat_map in H as (x & Hx & _).
  apply plus_sound in Hx as (d & w' & E' & Hd & _).
  rewrite E, E', every_app. simpl. unfold notDigit at 2. rewrite Hd. simpl.
  apply andb_false_r.
Qed.

Lemma test_digit_needed (pre tail : list Rx.rx) (content : string) :
  Forall forward pre ->
  every notDigit content = true ->
  Rx.test (seqs (pre ++ Rx.plus Js.isDigit :: tail)) content = false.
Proof.
  intros F H.
  destruct (Rx.test _ content) eqn:E; [|reflexivity].
  apply testFrom_sound in E as (prev & u & t & Eu & Ht).
  destruct (seqs _ (prev, t)) as [|q l] eqn:Eq; [congruence|].
  assert (D : every notDigit (snd (prev, t)) = false).
  { eapply (digit_needed pre tail _ q F). rewrite Eq. now left. }
  simpl in D. rewrite Eu, every_app, D, andb_false_r in H. discriminate.
Qed.

(** X14. A text without any digit is never version specific: both
    patterns of [hasVersionSpecificity] need a number after a word. *)
Theorem X14_no_digit_no_version (content : string) :
  every notDigit content = true -> hasVersionSpecificity content = false.
Proof.
  intro H. unfold hasVersionSpecificity, versionPatterns. cbn [existsb].
  assert (F1 : Forall forward [Rx.wb; Rx.plus Js.isWord; Rx.plus Js.isSpace]).
  { repeat constructor; first [apply forward_wb | apply forward_plus]. }
  assert (F2 : Forall forward
                 [Rx.wb; Rx.plus Js.isWord; Rx.plus Js.isSpace; Rx.lit "v"]).
  { repeat constructor;
      first [apply forward_wb | apply forward_plus
            | apply forward_seq; [apply forward_cls|apply forward_eps]]. }
  pose proof (test_digit_needed _
                [Rx.opt (Rx.seq dot (Rx.plus Js.isDigit));
                 Rx.opt (Rx.seq dot (Rx.plus Js.isDigit)); Rx.wb]
                content F1 H) as T1.
  pose proof (test_digit_needed _
                [Rx.opt (Rx.seq dot (Rx.plus Js.isDigit));
                 Rx.opt (Rx.seq dot (Rx.plus Js.isDigit)); Rx.wb]
                content F2 H) as T2.
  cbn [app] in T1, T2. rewrite T1, T2. reflexivity.
Qed.

Lemma X14_no_digit_no_version_witness :
  every notDigit "Built with React and Node" = true
  /\ hasVersionSpecificity "Built with React and Node" = false.
Proof.
  split; [reflexivity|].
  exact (X14_no_digit_no_version "Built with React and Node" eq_refl).
Defined.

(** ** The keyword scan *)

Lemma testFrom_spec (a : Rx.rx) (s : string) (prev : option ascii) :
  Rx.testFrom a prev s = true
  <-> exists u t, s = (u ++ t)%string /\ a (lastOr prev u, t) <> [].
Proof.
  revert prev. induction s as [|c r IH]; intro prev; simpl.
  - rewrite orb_false_r. unfold Rx.matchesAt. split.
    + intro H. exists EmptyString, EmptyString. split; [reflexivity|].
      simpl. destruct (a (prev, EmptyString)); discriminate.
    + intros (u & t & E & H).
      destruct u; [|discriminate]. destruct t; [|discriminate].
      simpl in H. destruct (a (prev, EmptyString)); congruence.
  - rewrite orb_true_iff, IH. unfold Rx.matchesAt. split.
    + intros [H|(u & t & -> & H)].
      * exists EmptyString, (String c r). split; [reflexivity|].
        simpl. destruct (a (prev, String c r)); discriminate.
      * now exists (String c u), t.
    + intros (u & t & E & H). destruct u as [|d u]; simpl in *.
      * left. subst t. destruct (a (prev, String c r)); congruence.
      * right. injection E as -> ->. now exists u, t.
Qed.

Lemma in_lit (w : string) (st q : Rx.pos) :
  In q (Rx.lit w st)
  <-> snd st = (w ++ snd q)%string /\ fst q = lastOr (fst st) w.
Proof.
  revert st. induction w as [|c w IH]; intro st; simpl.
  - split.
    + intros [<-|[]]. auto.
    + intros [E1 E2]. left. destruct st, q; simpl in *; congruence.
  - unfold Rx.seq. rewrite in_flat_map. split.
    + intros (m & Hm & H). apply cls_in in Hm as (x & E & Hx & F).
      apply Ascii.eqb_eq in Hx. subst x.
      apply IH in H as [E1 E2]. rewrite E, E1, E2, F. auto.
    + intros [E1 E2]. exists (Some c, (w ++ snd q)%string). split.
      * apply cls_in. exists c. simpl. rewrite Ascii.eqb_refl. auto.
      * apply IH. simpl. auto.
Qed.

Lemma in_alts (ws : list string) (st q : Rx.pos) :
  In q (Rx.alts ws st) <-> exists w, In w ws /\ In q (Rx.lit w st).
Proof.
  induction ws as [|w ws IH]; simpl.
  - split; [contradiction|]. intros (w & [] & _).
  - unfold Rx.alt. rewrite in_app_iff, IH. split.
    + intros [H|(x & Hx & H)]; [exists w|exists x]; auto.
    + intros (x & [<-|Hx] & H); [now left|right; now exists x].
Qed.

Lemma in_wb (st q : Rx.pos) :
  In q (Rx.wb st) <-> q = st /\ boundary (fst st) (snd st) = true.
Proof.
  unfold Rx.wb, boundary. destruct (xorb _ _); simpl.
  - split; [intros [<-|[]]; auto|intros [-> _]; now left].
  - split; [contradiction|intros [_ H]; discriminate].
Qed.

Lemma nonempty_in {A : Type} (l : list A) : l <> [] <-> exists x, In x l.
Proof.
  destruct l as [|a l]; simpl.
  - split; [congruence|intros (x & [])].
  - split; [intros _; exists a; now left|discriminate].
Qed.

Lemma wholeWord_spec (ws : list string) (s : string) :
  wholeWord ws s = true <-> occurs ws s.
Proof.
  unfold wholeWord, Rx.test, occurs. rewrite testFrom_spec. split.
  - intros (u & t & E & H). apply nonempty_in in H as (q & H).
    simpl in H. unfold Rx.seq in H.
    apply in_flat_map in H as (q0 & H0 & H).
    apply in_flat_map in H as (q1 & H1 & H).
    apply in_flat_map in H as (q2 & H2 & _).
    apply in_wb in H0 as [-> B0]. simpl in B0.
    apply in_alts in H1 as (w & Hw & H1).
    apply in_lit in H1 as [E1 F1]. simpl in E1, F1.
    apply in_wb in H2 as [_ B2].
    exists u, w, (snd q1). rewrite E, E1. rewrite E1 in B0. rewrite F1 in B2.
    auto.
  - intros (u & w & v & E & Hw & B0 & B2).
    exists u, (w ++ v)%string. split; [exact E|].
    apply nonempty_in. exists (lastOr (lastOr None u) w, v).
    simpl. unfold Rx.seq.
    apply in_flat_map. exists (lastOr None u, (w ++ v)%string). split.
    { apply in_wb. auto. }
    apply in_flat_map. exists (lastOr (lastOr None u) w, v). split.
    { apply in_alts. exists w. split; [exact Hw|]. apply in_lit. auto. }
    apply in_flat_map. exists (lastOr (lastOr None u) w, v). split.
    { apply in_wb. auto. }
    now left.
Qed.

(** X15. A topic flag of [detectSectionKeywords] is set exactly when one
    of the words of the topic occurs in the lower-cased text between two
    word boundaries: the word is neither preceded nor followed by a
    letter, a digit or an underscore. *)
Theorem X15_keyword_flags (content : string) :
  (hasSetup (detectSectionKeywords content) = true
   <-> occurs setupWords (Js.toLowerCase content))
  /\ (hasTesting (detectSectionKeywords content) = true
      <-> occurs testingWords (Js.toLowerCase content))
  /\ (hasCodeStyle (detectSectionKeywords content) = true
      <-> occurs styleWords (Js.toLowerCase content)).
Proof.
  unfold detectSectionKeywords. cbv zeta. simpl.
  repeat split; intro H; first [now apply wholeWord_spec | now apply wholeWord_spec in H].
Qed.

Lemma lowerChar_idem (c : ascii) : Js.lowerChar (Js.lowerChar c) = Js.lowerChar c.
Proof.
  destruct c as [[] [] [] [] [] [] [] []]; vm_compute; reflexivity.
Qed.

Lemma toLowerCase_idem (s : string) :
  Js.toLowerCase (Js.toLowerCase s) = Js.toLowerCase s.
Proof.
  induction s as [|c r IH]; simpl; [reflexivity|].
  now rewrite lowerChar_idem, IH.
Qed.

(** X16. The keyword scan ignores the case of the letters: a text and its
    lower-cased form get the same flags. *)
Theorem X16_keywords_ignore_case (content : string) :
  detectSectionKeywords (Js.toLowerCase content) = detectSectionKeywords content.
Proof.
  unfold detectSectionKeywords. cbv zeta. now rewrite toLowerCase_idem.
Qed.

(** ** Line numbers of the code blocks *)

Lemma pairUp_sorted (markers : list nat) (opened : option nat) :
  StronglySorted lt markers ->
  (forall o, opened = Some o -> Forall (lt o) markers) ->
  StronglySorted lt (pairUp opened markers).
Proof.
  revert opened. induction markers as [|f r IH]; intros opened Hs Ho.
  - constructor.
  - inversion Hs as [|? ? Hs' Hf]; subst.
    destruct opened as [o|]; simpl.
    + constructor.
      * apply IH; [exact Hs'|discriminate].
      * specialize (Ho o eq_refl). inversion Ho as [|? ? _ Hor]; subst.
        rewrite Forall_forall in *. intros x Hx.
        apply pairUp_subset in Hx as [Hx|Hx]; [discriminate|]. now apply Hor.
    + apply IH; [exact Hs'|]. intros o E. now injection E as <-.
Qed.

(** X17. The code blocks of a parse stand in the order of their opening
    lines, whose numbers increase strictly; each lies between 1 and the
    line count, the last line excluded, since a block that is recorded has
    its closing fence on a later line. *)
Theorem X17_block_line_numbers (content : string) :
  StronglySorted lt (map cb_lineNumber (codeBlocks (parseMarkdown content)))
  /\ Forall (fun b => 1 <= cb_lineNumber b < lineCount (parseMarkdown content))
            (codeBlocks (parseMarkdown content)).
Proof.
  pose proof (fenceNumbers_increasing (Js.split content) 0) as S0.
  split.
  - rewrite parse_codeBlocks. apply pairUp_sorted; [exact S0|discriminate].
  - apply Forall_forall. intros b Hb.
    apply (in_map cb_lineNumber) in Hb. rewrite parse_codeBlocks in Hb.
    pose proof (pairUp_before_last _ None S0 ltac:(discriminate)) as B.
    rewrite Forall_forall in B. pose proof (B _ Hb) as Hlt.
    apply pairUp_subset in Hb as [Hb|Hb]; [discriminate|].
    pose proof (fenceNumbers_above (Js.split content) 0) as A.
    pose proof (fenceNumbers_below (Js.split content) 0) as C.
    rewrite Forall_forall in A, C.
    assert (Hl : In (last (fenceNumbers 0 (Js.split content)) 0)
                    (fenceNumbers 0 (Js.split content))).
    { apply last_in. intro E. rewrite E in Hb. contradiction. }
    apply C in Hl. apply A in Hb.
    change (lineCount (parseMarkdown content)) with (List.length (Js.split content)).
    lia.
Qed.

(** ** Sections with little content *)

Lemma emptySection_fires (parsed : ParsedMarkdown) :
  In (mkSuggestion tip "Empty sections detected" medium)
     (checkReadability parsed)
  <-> exists s, In s (sections parsed)
                /\ String.length (Js.trim (sec_content s)) < 10.
Proof.
  assert (E : (exists s, In s (sections parsed)
                         /\ String.length (Js.trim (sec_content s)) < 10)
              <-> (0 <? List.length
                          (filter (fun s => String.length (Js.trim (sec_content s)) <? 10)
                                  (sections parsed))) = true).
  { rewrite filter_nonempty.
    split; intros (x & Hin & Hx); exists x; (split; [exact Hin|]).
    - now apply Nat.ltb_lt.
    - now apply Nat.ltb_lt in Hx. }
  rewrite E. unfold checkReadability. cbv zeta.
  destruct (0 <? List.length
                   (filter (fun s => String.length (Js.trim (sec_content s)) <? 10)
                           (sections parsed))).
  - split; [reflexivity|]. intros _.
    split_ifs; simpl; tauto.
  - split; [|discriminate]. intro H. exfalso. revert H.
    split_ifs; simpl; intuition discriminate.
Qed.

(** X18. A heading whose plain content, up to the next heading or the end
    of the input, has fewer than ten code units once trimmed, for example
    a heading that another heading follows at once, brings the suggestion
    Empty sections detected into the result. *)
Theorem X18_empty_section_detected (content : string)
  (pre body rest : list string) (h g1 g2 : string) :
  every Js.isSpace content = false ->
  Js.split content = pre ++ h :: body ++ rest ->
  Nat.even (List.length (fenceNumbers 0 pre)) = true ->
  isFenceLine h = false -> headingMatch h = Some (g1, g2) ->
  forallb plainLine body = true ->
  match rest with
  | [] => True
  | r :: _ => isFenceLine r = false /\ headingMatch r <> None
  end ->
  String.length (Js.trim (linesText body)) < 10 ->
  In (mkSuggestion tip "Empty sections detected" medium)
     (suggestions (validateAgentsMd content)).
Proof.
  intros Hn Hs He Hf Hm Hb Hr Hlen. apply nonblank in Hn.
  rewrite in_validate, (emitted_nonblank content Hn), in_runRules.
  do 5 right. left. apply emptySection_fires.
  exists (mkSection (Js.trim g2) (String.length g1) (List.length pre + 1)
                    (linesText body)).
  split; [|exact Hlen].
  exact (section_of_heading content pre body rest h g1 g2 Hs He Hf Hm Hb Hr).
Qed.

Lemma X18_empty_section_detected_witness :
  In (mkSuggestion tip "Empty sections detected" medium)
     (suggestions (validateAgentsMd (text ["## Setup"; "## Testing"; "npm test"]))).
Proof.
  apply (X18_empty_section_detected
           (text ["## Setup"; "## Testing"; "npm test"])
           [] [] ["## Testing"; "npm test"] "## Setup" "##" "Setup");
    try reflexivity.
  - split; [reflexivity|discriminate].
  - simpl. lia.
Defined.

(** ** The generator and the validator *)

Lemma extends_push (x : string) : extends (push x).
Proof. intro lines. now exists [x]. Qed.

Lemma extends_skip : extends (fun lines => lines).
Proof. intro lines. exists []. now rewrite app_nil_r. Qed.

Lemma extends_when (c : bool) (body : action) :
  extends body -> extends (when c body).
Proof.
  intros H lines. unfold when. destruct c; [apply H|apply extends_skip].
Qed.

Lemma extends_run (statements : list action) :
  Forall extends statements -> extends (run statements).
Proof.
  unfold run. induction 1 as [|f fs Hf Hfs IH]; intro lines; simpl.
  - apply extends_skip.
  - destruct (Hf lines) as (m1 & E1). rewrite E1.
    destruct (IH (lines ++ m1)) as (m2 & E2). rewrite E2.
    exists (m1 ++ m2). now rewrite app_assoc.
Qed.

Lemma extends_forEach {A : Type} (xs : list A) (body : A -> action) :
  (forall x, extends (body x)) -> extends (forEach xs body).
Proof.
  intro H. unfold forEach. induction xs as [|x xs IH]; intro lines; simpl.
  - apply extends_skip.
  - destruct (H x lines) as (m1 & E1). rewrite E1.
    destruct (IH (lines ++ m1)) as (m2 & E2). rewrite E2.
    exists (m1 ++ m2). now rewrite app_assoc.
Qed.

Lemma extends_bullets (s : string) : extends (bullets s).
Proof.
  apply extends_forEach. intro line. apply extends_when, extends_push.
Qed.

Lemma generate_lines (data : WizardData) :
  exists more,
    generateMarkdown data = Js.join nl ("# AGENTS.md" :: "" :: more).
Proof.
  unfold generateMarkdown. cbv zeta.
  match goal with
  | |- context [run (?a :: ?b :: ?rest) []] =>
      change (run (a :: b :: rest) []) with (run rest (b (a [])));
      assert (E : extends (run rest))
        by (repeat first
              [ apply extends_push | apply extends_bullets
              | apply extends_when | apply extends_run
              | apply extends_forEach; intro
              | apply Forall_cons | apply Forall_nil
              | match goal with
                | |- extends (match ?o with _ => _ end) =>
                    destruct o; [apply extends_push|apply extends_skip]
                end ]);
      destruct (E (b (a []))) as (more & ->)
  end.
  now exists more.
Qed.

Lemma split_first (x z : string) :
  newlines x = 0 -> Js.split (x ++ String Js.newline z) = x :: Js.split z.
Proof.
  induction x as [|c x IH]; simpl; [reflexivity|].
  destruct (Js.code c =? 10); [discriminate|].
  intro H. now rewrite (IH H).
Qed.

Lemma generate_split (data : WizardData) :
  exists rest, Js.split (generateMarkdown data) = "# AGENTS.md" :: rest.
Proof.
  destruct (generate_lines data) as (more & E). rewrite E.
  change (Js.join nl ("# AGENTS.md" :: "" :: more))
    with ("# AGENTS.md" ++ String Js.newline (Js.join nl ("" :: more)))%string.
  rewrite split_first by reflexivity. now eexists.
Qed.

Lemma step_keeps_title (st : Scan) (i : nat) (line : string) (h : Heading) :
  hd_error (sc_headings st) = Some h /\ openSections st <> [] ->
  hd_error (sc_headings (step st i line)) = Some h
  /\ openSections (step st i line) <> [].
Proof.
  unfold openSections. step_cases st line; intros [H1 H2]; try (split; assumption).
  all: try (split; [|destruct cur; intro E; apply app_eq_nil in E as [_ E];
                     discriminate]).
  all: try (split; [exact H1|intro E; apply app_eq_nil in E as [_ E];
                              discriminate]).
  all: destruct hs; [discriminate|exact H1].
Qed.

Lemma generate_parse (data : WizardData) :
  hd_error (headings (parseMarkdown (generateMarkdown data))) = Some titleHeading
  /\ sections (parseMarkdown (generateMarkdown data)) <> [].
Proof.
  destruct (generate_split data) as (rest & E).
  unfold parseMarkdown, parseLines. rewrite finish_sections, E. simpl.
  apply (forEachFrom_ind
           (fun st => hd_error (sc_headings st) = Some titleHeading
                      /\ openSections st <> [])).
  - intros st i line. apply step_keeps_title.
  - split; [reflexivity|discriminate].
Qed.

Lemma generate_not_blank (data : WizardData) :
  every Js.isSpace (generateMarkdown data) = false.
Proof.
  destruct (generate_lines data) as (more & E). rewrite E. reflexivity.
Qed.

(** X19. Whatever the answers of the wizard, the document it generates
    is not blank, its parse starts with the heading AGENTS.md of level 1
    on line 1 and has a section, and the validator neither answers with
    the empty-file result nor suggests Add section headings. *)
Theorem X19_generated_document (data : WizardData) :
  every Js.isSpace (generateMarkdown data) = false
  /\ hd_error (headings (parseMarkdown (generateMarkdown data)))
     = Some (mkHeading "AGENTS.md" 1 1)
  /\ sections (parseMarkdown (generateMarkdown data)) <> []
  /\ validateAgentsMd (generateMarkdown data) <> emptyResult
  /\ ~ titled "Add section headings"
              (suggestions (validateAgentsMd (generateMarkdown data))).
Proof.
  pose proof (generate_not_blank data) as B.
  destruct (generate_parse data) as [H S0].
  split; [exact B|]. split; [exact H|]. split; [exact S0|].
  pose proof (nonblank _ B) as Hb. split.
  - intro E.
    assert (T : titled "Get started with AGENTS.md"
                       (suggestions (validateAgentsMd (generateMarkdown data)))).
    { rewrite E. exists getStarted. split; [now left|reflexivity]. }
    apply (titled_result _ _ Hb) in T as (x & Hx & Tx).
    apply rule_origin in Hx. unfold fromRule in Hx.
    unfold lengthTitles, minimumTitles, commonTitles, readabilityTitles in Hx.
    simpl in Hx. rewrite Tx in Hx. intuition discriminate.
  - rewrite (titled_result _ _ Hb).
    rewrite titled_checkMinimumContent by (unfold minimumTitles; simpl; tauto).
    destruct (length_rules (parseMarkdown (generateMarkdown data)))
      as (_ & _ & _ & L4).
    rewrite L4. tauto.
Qed.

Lemma opensBlock_block (c : bool) (h : string) (rest : list action) :
  In h blockHeadings -> Forall extends rest ->
  opensBlock (when c (run (push h :: rest))).
Proof.
  intros Hh Hr lines. unfold when. destruct c.
  - change (run (push h :: rest) lines) with (run rest (lines ++ [h])).
    destruct (extends_run rest Hr (lines ++ [h])) as (more & E).
    exists (h :: more). split; [|exact Hh].
    rewrite E, <- app_assoc. reflexivity.
  - exists []. split; [now rewrite app_nil_r|exact I].
Qed.

Lemma opensBlock_run (statements : list action) :
  Forall opensBlock statements -> opensBlock (run statements).
Proof.
  unfold run. induction 1 as [|f fs Hf Hfs IH]; intro lines; simpl.
  - exists []. split; [now rewrite app_nil_r|exact I].
  - destruct (Hf lines) as (m1 & E1 & P1). rewrite E1.
    destruct (IH (lines ++ m1)) as (m2 & E2 & P2). rewrite E2.
    exists (m1 ++ m2). split; [now rewrite app_assoc|].
    destruct m1; [exact P2|exact P1].
Qed.

Lemma generate_blocks (data : WizardData) :
  exists more,
    generateMarkdown data = Js.join nl ("# AGENTS.md" :: "" :: more)
    /\ match more with
       | [] => True
       | h :: _ => In h blockHeadings
       end.
Proof.
  unfold generateMarkdown. cbv zeta.
  match goal with
  | |- context [run (?a :: ?b :: ?rest) []] =>
      change (run (a :: b :: rest) []) with (run rest (b (a [])));
      assert (E : opensBlock (run rest))
  end.
  { apply opensBlock_run.
    repeat (apply Forall_cons;
            [ apply opensBlock_block;
              [ unfold blockHeadings; simpl; tauto
              | repeat first
                  [ apply extends_push | apply extends_bullets
                  | apply extends_when | apply extends_run
                  | apply extends_forEach; intro
                  | apply Forall_cons | apply Forall_nil
                  | match goal with
                    | |- extends (match ?o with _ => _ end) =>
                        destruct o; [apply extends_push|apply extends_skip]
                    end ] ]
            | ]).
    apply Forall_nil. }
  match goal with
  | |- context [run ?rest (?b (?a []))] =>
      destruct (E (b (a []))) as (more & -> & P)
  end.
  now exists more.
Qed.

Lemma split_line (x : string) : newlines x = 0 -> Js.split x = [x].
Proof.
  induction x as [|c x IH]; simpl; [reflexivity|].
  destruct (Js.code c =? 10); [discriminate|].
  intro H. now rewrite (IH H).
Qed.

Lemma blockHeading_line (h : string) :
  In h blockHeadings ->
  newlines h = 0 /\ isFenceLine h = false /\ headingMatch h <> None.
Proof.
  unfold blockHeadings. simpl.
  intros [<-|[<-|[<-|[<-|[<-|[<-|[<-|[]]]]]]]];
    (split; [reflexivity|split; [reflexivity|discriminate]]).
Qed.

Lemma generate_split_blocks (data : WizardData) :
  exists rest,
    Js.split (generateMarkdown data) = [] ++ "# AGENTS.md" :: [""] ++ rest
    /\ match rest with
       | [] => True
       | r :: _ => isFenceLine r = false /\ headingMatch r <> None
       end.
Proof.
  destruct (generate_blocks data) as (more & E & P). rewrite E.
  destruct more as [|h more].
  - exists []. split; [reflexivity|exact I].
  - destruct (blockHeading_line h P) as (N & F & M).
    change (Js.join nl ("# AGENTS.md" :: "" :: h :: more))
      with ("# AGENTS.md"
            ++ String Js.newline ("" ++ String Js.newline (Js.join nl (h :: more))))%string.
    rewrite split_first by reflexivity. rewrite split_first by reflexivity.
    destruct more as [|x more].
    + exists [h]. simpl Js.join. rewrite (split_line h N). split; [reflexivity|].
      split; assumption.
    + change (Js.join nl (h :: x :: more))
        with (h ++ String Js.newline (Js.join nl (x :: more)))%string.
      rewrite (split_first h _ N). eexists. split; [reflexivity|].
      split; assumption.
Qed.

(** X20. Every generated document draws the suggestion Empty sections
    detected: its title heading is followed by an empty line and then by
    the heading of a block or by the end, so the first section has no
    content of its own. *)
Theorem X20_generated_document_empty_section (data : WizardData) :
  In (mkSection "AGENTS.md" 1 1 nl)
     (sections (parseMarkdown (generateMarkdown data)))
  /\ In (mkSuggestion tip "Empty sections detected" medium)
        (suggestions (validateAgentsMd (generateMarkdown data))).
Proof.
  destruct (generate_split_blocks data) as (rest & E & P).
  assert (S0 : In (mkSection "AGENTS.md" 1 1 nl)
                  (sections (parseMarkdown (generateMarkdown data)))).
  { exact (section_of_heading (generateMarkdown data) [] [""] rest
             "# AGENTS.md" "#" "AGENTS.md" E eq_refl eq_refl eq_refl eq_refl P). }
  split; [exact S0|].
  pose proof (nonblank _ (generate_not_blank data)) as Hb.
  rewrite in_validate, (emitted_nonblank _ Hb), in_runRules.
  do 5 right. left. apply emptySection_fires.
  exists (mkSection "AGENTS.md" 1 1 nl). split; [exact S0|]. simpl. lia.
Qed.

(** ** The code-style selection *)

Lemma includes_spec (current : list string) (styleId : string) :
  existsb (String.eqb styleId) current = true <-> In styleId current.
Proof.
  rewrite existsb_exists. split.
  - intros (x & Hx & E). apply String.eqb_eq in E. now subst.
  - intro H. exists styleId. split; [exact H|apply String.eqb_refl].
Qed.

Lemma filter_absent (current : list string) (styleId : string) :
  ~ In styleId current ->
  filter (fun s => negb (String.eqb s styleId)) current = current.
Proof.
  induction current as [|x xs IH]; intro H; simpl; [reflexivity|].
  destruct (String.eqb_spec x styleId) as [E|E]; simpl.
  - exfalso. apply H. now left.
  - rewrite IH; [reflexivity|]. intro Hx. apply H. now right.
Qed.

(** X21. Toggling a code style flips its membership in the selection and
    leaves the other styles as they are; a selection without duplicates
    stays so; toggling twice a style that was not selected gives the
    selection back. *)
Theorem X21_toggle_code_style (current : list string) (styleId : string) :
  (In styleId (toggleCodeStyle current styleId) <-> ~ In styleId current)
  /\ (forall other, other <> styleId ->
        (In other (toggleCodeStyle current styleId) <-> In other current))
  /\ (NoDup current -> NoDup (toggleCodeStyle current styleId))
  /\ (~ In styleId current ->
      toggleCodeStyle (toggleCodeStyle current styleId) styleId = current).
Proof.
  unfold toggleCodeStyle at 1 2 3.
  destruct (existsb (String.eqb styleId) current) eqn:E.
  - apply includes_spec in E.
    split; [|split; [|split]].
    + split; [|tauto]. intro H. apply filter_In in H as [_ H].
      rewrite String.eqb_refl in H. discriminate.
    + intros other Ho. rewrite filter_In. split; [tauto|].
      intro H. split; [exact H|].
      apply negb_true_iff. now apply String.eqb_neq.
    + intro H. now apply NoDup_filter.
    + tauto.
  - assert (N : ~ In styleId current).
    { intro H. apply includes_spec in H. congruence. }
    split; [|split; [|split]].
    + split; [intros _; exact N|]. intros _. apply in_or_app. right. now left.
    + intros other Ho. rewrite in_app_iff. simpl. split; [|tauto].
      intros [H|[H|[]]]; [exact H|congruence].
    + intro H. apply NoDup_app; [exact H|repeat constructor; intros []|].
      intros x Hx [<-|[]]. contradiction.
    + intros _. unfold toggleCodeStyle. rewrite E.
      assert (I0 : existsb (String.eqb styleId) (current ++ [styleId]) = true).
      { apply includes_spec. apply in_or_app. right. now left. }
      rewrite I0, filter_app, (filter_absent current styleId N). simpl.
      rewrite String.eqb_refl. simpl. apply app_nil_r.
Qed.

Lemma X21_toggle_code_style_witness :
  NoDup (toggleCodeStyle ["tabs"; "semicolons"] "tabs")
  /\ toggleCodeStyle (toggleCodeStyle ["tabs"] "semicolons") "semicolons"
     = ["tabs"].
Proof.
  split.
  - apply (proj1 (proj2 (proj2 (X21_toggle_code_style ["tabs"; "semicolons"] "tabs")))).
    repeat constructor; simpl; intuition discriminate.
  - apply (proj2 (proj2 (proj2 (X21_toggle_code_style ["tabs"] "semicolons")))).
    simpl. intuition discriminate.
Defined.

(** The floor of 45 points is attained: 201 lines without a heading, six
    inline commands and a tool without a version. *)
Example score_floor_attained :
  score (validateAgentsMd
           (text ("React `a b` `a b` `a b` `a b` `a b` `a b`" :: repeat "x" 200)))
  = 45%Z.
Proof. vm_compute. reflexivity. Qed.
